(** * whenty: polling a condition on a repeating timer

    A shallow embedding of [src/index.ts] (the exported functions [sync]
    and [async]) over a small model of the JavaScript host they run on:
    a table of repeating timers ([setInterval] / [clearInterval]), a
    promise store ([new Promise] / [resolve]), closure frames holding the
    [const interval] binding, and an event loop that fires the earliest
    timer.  The caller's [conditionFn] and [callback] are arbitrary
    effectful functions over a caller-owned world; either may throw.

    Modelling choices: times and [intervalMs] are integers of
    milliseconds (a JavaScript [number] in the source); the delay a
    timer is armed with is the one the host makes of the requested one
    ([host_delay]: Node and Bun arm 1 ms for a request below 1 or above
    2147483647); the clock jumps to the due time of the timer that
    fires, with no jitter; a run is one invocation of [sync] or [async]
    on a freshly started host, and whatever else the program does
    between two ticks is a function [env] on the world. *)

From Stdlib Require Import ZArith String Lia.
From stdpp Require Import base list.

(** ** Values of the host *)

(** What a JavaScript [throw] carries.  [ReferenceError] is raised by the
    host when a [const] binding is read before its initialisation. *)
Inductive exn : Type :=
  | ReferenceError (name : string)
  | Thrown (msg : string).

(** Outcome of running a piece of JavaScript: normal completion with a
    value, or an abrupt completion by [throw]. *)
Inductive result (A : Type) : Type :=
  | Ret (a : A)
  | Throw (e : exn).
Arguments Ret {A} a.
Arguments Throw {A} e.

(** State of a [Promise<boolean>]. *)
Inductive pstate : Type :=
  | Pending
  | Fulfilled (v : bool)
  | Rejected (e : exn).

(** Observable events of one run, recorded with the time they happen. *)
Inductive event : Type :=
  | EvEval (r : result bool)      (* conditionFn() was evaluated *)
  | EvClear (h : nat)             (* clearInterval(h) *)
  | EvCall (r : result unit)      (* callback() was invoked *)
  | EvSettle (p : nat) (o : pstate) (* promise p left the pending state *)
  | EvUncaught (e : exn).         (* a throw reached the event loop *)

(** ** Callers

    The functions the test suite (test.ts) and the examples of the README
    pass to [sync] and [async], over the state they close over. *)

(** test.ts, tests 1.1 and 2.1: the world is the counter of the test
    paired with the call count of the mock callback; the condition
    increments the counter and answers whether it has reached [k]. *)
Definition counting (k : nat) (w : nat * nat) : result bool * (nat * nat) :=
  (Ret (k <=? S (fst w)), (S (fst w), snd w)).

(** test.ts, [createMockCallback]. *)
Definition mock (w : nat * nat) : result unit * (nat * nat) :=
  (Ret tt, (fst w, S (snd w))).

(** test.ts, tests 1.3 and 2.3: [() => false]. *)
Definition never (w : nat * nat) : result bool * (nat * nat) :=
  (Ret false, w).

(** test.ts, tests 1.2 and 2.2: [() => true]. *)
Definition always (w : nat * nat) : result bool * (nat * nat) :=
  (Ret true, w).

(** A condition that throws until its [k]-th evaluation, which returns
    [true]. *)
Definition flaky (k : nat) (w : nat * nat) : result bool * (nat * nat) :=
  if S (fst w) <? k
  then (Throw (Thrown "not ready"%string), (S (fst w), snd w))
  else (Ret true, (S (fst w), snd w)).

(** A callback that throws. *)
Definition failing (w : nat * nat) : result unit * (nat * nat) :=
  (Throw (Thrown "callback failed"%string), w).

(** Nothing but the two functions touches the world. *)
Definition quiet (k : nat) (w : nat * nat) : nat * nat := w.

(** README: a flag ([dataLoaded], [isServiceUp]) paired with the number
    of lines the callback has printed; the condition reads the flag. *)
Definition flag_set (w : bool * nat) : result bool * (bool * nat) :=
  (Ret (fst w), w).
Definition print_line (w : bool * nat) : result unit * (bool * nat) :=
  (Ret tt, (fst w, S (snd w))).

(** README: a [setTimeout] of the program sets the flag [at_ms]
    milliseconds after the start; tick [k + 1] of a poll every [every]
    milliseconds sees it once that time has come. *)
Definition sets_flag (at_ms every : Z) (k : nat) (w : bool * nat)
    : bool * nat :=
  (fst w || (at_ms <=? (Z.of_nat k + 1) * every)%Z, snd w).

(** test.ts, [createMockCallback] (lines 36-46): a mock is its
    [callCount]; invoking it increments the count. *)
Definition mock_invoke (callCount : nat) : nat := S callCount.
Definition wasCalled (callCount : nat) : bool := 0 <? callCount.
Definition getCallCount (callCount : nat) : nat := callCount.
Definition mock_reset (callCount : nat) : nat := 0.

(** A mock passed as [callback], the world being the state [A] of the
    caller paired with the call count of the mock. *)
Definition mock_callback {A : Type} (w : A * nat) : result unit * (A * nat) :=
  (Ret tt, (fst w, mock_invoke (snd w))).

(** A function of the caller, and a change of the caller's state by the
    rest of the program, that leave the mock alone. *)
Definition beside_mock {A B : Type} (g : A -> result B * A) (w : A * nat)
    : result B * (A * nat) :=
  (fst (g (fst w)), (snd (g (fst w)), snd w)).
Definition around_mock {A : Type} (env : nat -> A -> A) (k : nat)
    (w : A * nat) : A * nat :=
  (env k (fst w), snd w).

(** test.ts, lines 4-31: the colours, the two counters of the suite, the
    console (each line with the stream it went to, [true] for stderr),
    and [assert]. *)
Definition escape : string := String (Ascii.ascii_of_nat 27) EmptyString.
Definition Reset : string := (escape ++ "[0m")%string.
Definition FgGreen : string := (escape ++ "[32m")%string.
Definition FgRed : string := (escape ++ "[31m")%string.

Record tally : Type := mkTally {
  passedTests : nat;
  failedTests : nat;
  console : list (bool * string)
}.

Definition assert (condition : bool) (message : string) (t : tally) : tally :=
  if condition then
    mkTally (S (passedTests t)) (failedTests t)
      (console t ++
       [(false, (FgGreen ++ "✅ PASS: " ++ message ++ Reset)%string)])
  else
    mkTally (passedTests t) (S (failedTests t))
      (console t ++
       [(true, (FgRed ++ "❌ FAIL: " ++ message ++ Reset)%string)]).

(** A sequence of assertions, in order. *)
Definition assert_all (checks : list (bool * string)) (t : tally) : tally :=
  fold_left (fun t c => assert (fst c) (snd c) t) checks t.

(** test.ts, line 197: [process.exit(failedTests > 0 ? 1 : 0)]. *)
Definition exit_code (t : tally) : nat :=
  if 0 <? failedTests t then 1 else 0.

(** ** Hosts *)

(** The delay Node and Bun arm for a requested delay: the request when
    it is between 1 and 2^31 - 1 milliseconds, 1 millisecond otherwise. *)
Definition TIMEOUT_MAX : Z := 2147483647.
Definition node_delay (ms : Z) : Z :=
  if ((1 <=? ms) && (ms <=? TIMEOUT_MAX))%Z then ms else 1%Z.

Section Whenty.

(** The caller's world: whatever state [conditionFn] and [callback] read
    or mutate. *)
Context {W : Type}.

(** What the host makes of the delay [setInterval] is called with.  The
    source hands [intervalMs] to the host as it is; hosts differ in what
    they arm for it ([node_delay] is the one of Node and Bun). *)
Variable host_delay : Z -> Z.

(** An effectful caller-supplied function returning [A]: it may change
    the world, and it may throw instead of returning. *)
Definition fn (A : Type) : Type := W -> result A * W.

(** The two arrow functions handed to [setInterval], as closures: each
    captures [conditionFn], [callback] and the frame [f] in which
    [const interval] lives; the one of [async] also captures the promise
    whose [resolve] it calls. *)
Inductive task : Type :=
  | SyncTick (conditionFn : fn bool) (callback : fn unit) (f : nat)
  | AsyncTick (conditionFn : fn bool) (callback : fn unit) (f : nat) (p : nat).

(** An armed repeating timer: its handle, the time of its next firing,
    its period, and the function it runs. *)
Record timer : Type := mkTimer {
  tid : nat;
  due : Z;
  period : Z;
  job : task
}.

(** The state of the host. *)
Record host : Type := mkHost {
  now : Z;                        (* clock, in milliseconds *)
  next_id : nat;                  (* next timer handle to hand out *)
  timers : list timer;            (* armed timers, in creation order *)
  frames : list (option nat);     (* const interval, per closure frame *)
  promises : list pstate;         (* promise store *)
  world : W;                      (* caller-owned state *)
  ticks : nat;                    (* timer callbacks run so far *)
  halted : bool;                  (* the host gave up after a throw *)
  trace : list (Z * event)        (* what happened, oldest first *)
}.

Definition set_now (t : Z) (s : host) : host :=
  mkHost t (next_id s) (timers s) (frames s) (promises s) (world s)
         (ticks s) (halted s) (trace s).
Definition set_next_id (i : nat) (s : host) : host :=
  mkHost (now s) i (timers s) (frames s) (promises s) (world s)
         (ticks s) (halted s) (trace s).
Definition set_timers (ts : list timer) (s : host) : host :=
  mkHost (now s) (next_id s) ts (frames s) (promises s) (world s)
         (ticks s) (halted s) (trace s).
Definition set_frames (fs : list (option nat)) (s : host) : host :=
  mkHost (now s) (next_id s) (timers s) fs (promises s) (world s)
         (ticks s) (halted s) (trace s).
Definition set_promises (ps : list pstate) (s : host) : host :=
  mkHost (now s) (next_id s) (timers s) (frames s) ps (world s)
         (ticks s) (halted s) (trace s).
Definition set_world (w : W) (s : host) : host :=
  mkHost (now s) (next_id s) (timers s) (frames s) (promises s) w
         (ticks s) (halted s) (trace s).
Definition set_ticks (k : nat) (s : host) : host :=
  mkHost (now s) (next_id s) (timers s) (frames s) (promises s) (world s)
         k (halted s) (trace s).
Definition set_halted (b : bool) (s : host) : host :=
  mkHost (now s) (next_id s) (timers s) (frames s) (promises s) (world s)
         (ticks s) b (trace s).
Definition record (e : event) (s : host) : host :=
  mkHost (now s) (next_id s) (timers s) (frames s) (promises s) (world s)
         (ticks s) (halted s) (trace s ++ [(now s, e)]).

(** ** The monad of JavaScript code: host state plus exceptions *)

Definition M (A : Type) : Type := host -> result A * host.

Definition ret {A} (a : A) : M A := fun s => (Ret a, s).

Definition bind {A B} (c : M A) (k : A -> M B) : M B := fun s =>
  match c s with
  | (Ret a, s') => k a s'
  | (Throw e, s') => (Throw e, s')
  end.

Notation "x <- c ;; k" := (bind c (fun x => k))
  (at level 100, c at next level, right associativity).
Notation "c ;; k" := (bind c (fun _ => k))
  (at level 100, right associativity).

(** ** Host primitives *)

(** [setInterval(handler, ms)]: arm a repeating timer and return its handle.
    Nothing runs at call time; the timer is armed with the delay the host
    makes of [ms], and never in the past. *)
Definition setInterval (handler : task) (ms : Z) : M nat := fun s =>
  let h := next_id s in
  let d := Z.max 0 (host_delay ms) in
  (Ret h, set_timers (timers s ++ [mkTimer h (now s + d) d handler])
            (set_next_id (S h) s)).

(** [clearInterval(h)]: disarm the timer with handle [h], if any. *)
Definition clearInterval (h : nat) : M unit := fun s =>
  (Ret tt, record (EvClear h)
             (set_timers (filter (fun t => tid t <> h) (timers s)) s)).

(** Entering a function body creates the frame of its [const interval],
    not yet initialised. *)
Definition alloc_frame : M nat := fun s =>
  (Ret (length (frames s)), set_frames (frames s ++ [None]) s).

(** [const interval = h]. *)
Definition init_const (f h : nat) : M unit := fun s =>
  (Ret tt, set_frames (<[f := Some h]> (frames s)) s).

(** Reading [interval] from a closure; a read before the initialisation
    throws. *)
Definition read_const (f : nat) : M nat := fun s =>
  match frames s !! f with
  | Some (Some h) => (Ret h, s)
  | _ => (Throw (ReferenceError "interval"%string), s)
  end.

(** Settling a promise: only a pending promise changes state. *)
Definition settle (p : nat) (o : pstate) (s : host) : host :=
  match promises s !! p with
  | Some Pending => record (EvSettle p o) (set_promises (<[p := o]> (promises s)) s)
  | _ => s
  end.

(** The [resolve] function of promise [p]. *)
Definition resolve (p : nat) (v : bool) : M unit := fun s =>
  (Ret tt, settle p (Fulfilled v) s).

(** [new Promise(executor)]: the executor runs at once, with the resolve
    function of the fresh promise; a throw of the executor rejects it. *)
Definition new_Promise (executor : nat -> M unit) : M nat := fun s =>
  let p := length (promises s) in
  match executor p (set_promises (promises s ++ [Pending]) s) with
  | (Ret _, s') => (Ret p, s')
  | (Throw e, s') => (Ret p, settle p (Rejected e) s')
  end.

(** ** Calling the caller's functions *)

(** [conditionFn()] *)
Definition call_conditionFn (conditionFn : fn bool) : M bool := fun s =>
  let (r, w) := conditionFn (world s) in
  (r, record (EvEval r) (set_world w s)).

(** [callback()] *)
Definition call_callback (callback : fn unit) : M unit := fun s =>
  let (r, w) := callback (world s) in
  (r, record (EvCall r) (set_world w s)).

(** ** src/index.ts *)

(** The arrow function of [sync], lines 2-7. *)
Definition sync_tick (conditionFn : fn bool) (callback : fn unit)
    (f : nat) : M unit :=
  b <- call_conditionFn conditionFn ;;
  if b then
    interval <- read_const f ;;
    clearInterval interval ;;
    call_callback callback
  else ret tt.

(** [sync(conditionFn, callback, intervalMs = 50)], lines 1-8. *)
Definition sync (conditionFn : fn bool) (callback : fn unit)
    (intervalMs : option Z) : M unit :=
  let intervalMs := default 50%Z intervalMs in
  f <- alloc_frame ;;
  interval <- setInterval (SyncTick conditionFn callback f) intervalMs ;;
  init_const f interval.

(** The arrow function of [async], lines 12-18. *)
Definition async_tick (conditionFn : fn bool) (callback : fn unit)
    (f p : nat) : M unit :=
  b <- call_conditionFn conditionFn ;;
  if b then
    interval <- read_const f ;;
    clearInterval interval ;;
    call_callback callback ;;
    resolve p true
  else ret tt.

(** [async(conditionFn, callback, intervalMs = 50)], lines 10-20. *)
Definition async (conditionFn : fn bool) (callback : fn unit)
    (intervalMs : option Z) : M nat :=
  let intervalMs := default 50%Z intervalMs in
  new_Promise (fun resolve_p =>
    f <- alloc_frame ;;
    interval <- setInterval (AsyncTick conditionFn callback f resolve_p)
                  intervalMs ;;
    init_const f interval).

(** A JavaScript call binds positional arguments to parameters from the
    left and drops the ones that have no parameter: [sync] and [async]
    declare a single numeric parameter after the two functions. *)
Definition call_sync (conditionFn : fn bool) (callback : fn unit)
    (args : list Z) : M unit :=
  sync conditionFn callback (args !! 0).
Definition call_async (conditionFn : fn bool) (callback : fn unit)
    (args : list Z) : M nat :=
  async conditionFn callback (args !! 0).

(** ** The event loop *)

(** What the rest of the program does to the world before the [k]-th
    timer callback runs. *)
Variable env : nat -> W -> W.

(** Whether the host stops at an uncaught throw (a Node or Bun process
    without a handler) or reports it and goes on (a browser). *)
Variable fatal : bool.

Definition run_task (j : task) : M unit :=
  match j with
  | SyncTick conditionFn callback f => sync_tick conditionFn callback f
  | AsyncTick conditionFn callback f p => async_tick conditionFn callback f p
  end.

(** The timer that fires next: the earliest due, the oldest among equals. *)
Fixpoint earliest (ts : list timer) : option timer :=
  match ts with
  | [] => None
  | t :: ts' =>
      match earliest ts' with
      | Some u => if (due u <? due t)%Z then Some u else Some t
      | None => Some t
      end
  end.

(** A repeating timer that is still armed after its callback ran is due
    again one period later. *)
Definition rearm (t : timer) (s : host) : host :=
  set_timers
    (map (fun u => if decide (tid u = tid t)
                   then mkTimer (tid u) (now s + period u) (period u) (job u)
                   else u)
         (timers s)) s.

(** A throw that nobody caught. *)
Definition report (e : exn) (s : host) : host :=
  set_halted fatal (record (EvUncaught e) s).

(** One turn of the event loop: advance the clock to the next timer and
    run its callback to completion. *)
Definition step (s : host) : host :=
  if halted s then s else
  match earliest (timers s) with
  | None => s
  | Some t =>
      let s1 := set_ticks (S (ticks s))
                  (set_world (env (ticks s) (world s))
                     (set_now (Z.max (now s) (due t)) s)) in
      match run_task (job t) s1 with
      | (Ret _, s2) => rearm t s2
      | (Throw e, s2) => report e (rearm t s2)
      end
  end.

Fixpoint run (n : nat) (s : host) : host :=
  match n with
  | O => s
  | S n' => step (run n' s)
  end.

(** A freshly started program at time [t0] with world [w0]. *)
Definition boot (t0 : Z) (w0 : W) : host :=
  mkHost t0 1 [] [] [] w0 0 false [].

(** ** Observations on a run *)

(** How many recorded events satisfy [p]. *)
Fixpoint occurrences (p : event -> bool) (tr : list (Z * event)) : nat :=
  match tr with
  | [] => 0
  | (_, e) :: tr' => (if p e then 1 else 0) + occurrences p tr'
  end.

Definition is_eval (e : event) : bool :=
  match e with EvEval _ => true | _ => false end.
Definition is_true_eval (e : event) : bool :=
  match e with EvEval (Ret true) => true | _ => false end.
Definition is_call (e : event) : bool :=
  match e with EvCall _ => true | _ => false end.
Definition is_settle (e : event) : bool :=
  match e with EvSettle _ _ => true | _ => false end.
Definition is_reject (e : event) : bool :=
  match e with EvSettle _ (Rejected _) => true | _ => false end.

Definition is_failed_call (e : event) : bool :=
  match e with EvCall (Throw _) => true | _ => false end.

Definition is_returned_call (e : event) : bool :=
  match e with EvCall (Ret _) => true | _ => false end.

(** The outcomes of the invocations of [callback] so far, oldest first,
    and how many of them returned. *)
Fixpoint call_results (tr : list (Z * event)) : list (result unit) :=
  match tr with
  | [] => []
  | (_, EvCall r) :: tr' => r :: call_results tr'
  | _ :: tr' => call_results tr'
  end.
Definition returned_calls (s : host) : nat :=
  occurrences is_returned_call (trace s).

(** Evaluations of [conditionFn], evaluations that returned [true],
    invocations of [callback], invocations that threw, and promise
    rejections so far. *)
Definition failed_calls (s : host) : nat :=
  occurrences is_failed_call (trace s).
Definition evaluations (s : host) : nat := occurrences is_eval (trace s).
Definition returned_true (s : host) : nat := occurrences is_true_eval (trace s).
Definition calls (s : host) : nat := occurrences is_call (trace s).
Definition rejections (s : host) : nat := occurrences is_reject (trace s).

(** The trace without the settlements of promises. *)
Definition erase_settle (tr : list (Z * event)) : list (Z * event) :=
  filter (fun x => is_settle (snd x) = false) tr.

(** ** One invocation on a fresh host *)

Variable conditionFn : fn bool.
Variable callback : fn unit.
Variable intervalMs : option Z.
Variable t0 : Z.
Variable w0 : W.

(** The host right after [sync(conditionFn, callback, intervalMs)], and
    right after [async(conditionFn, callback, intervalMs)], returned. *)
Definition started_sync : host :=
  snd (sync conditionFn callback intervalMs (boot t0 w0)).
Definition started_async : host :=
  snd (async conditionFn callback intervalMs (boot t0 w0)).

(** The delay the timer was armed with. *)
Definition delay : Z := Z.max 0 (host_delay (default 50%Z intervalMs)).

(** The time of the [n]-th tick, counted from 1. *)
Definition tick_time (n : nat) : Z := (t0 + Z.of_nat n * delay)%Z.

(** The world after [k] ticks that did not stop the polling, and the
    world in which evaluation number [k] (counted from 0) takes place. *)
Fixpoint world_after (k : nat) : W :=
  match k with
  | O => w0
  | S k' => snd (conditionFn (env k' (world_after k')))
  end.
Definition world_before (k : nat) : W := env k (world_after k).

(** What [conditionFn] answers at evaluation number [k], counted from 0. *)
Definition poll (k : nat) : result bool := fst (conditionFn (world_before k)).

(** [conditionFn] returns [false] on ticks 1 .. N-1 and [true] on tick N. *)
Definition first_true_on_tick (N : nat) : Prop :=
  1 <= N /\ poll (N - 1) = Ret true /\
  forall k, k < N - 1 -> poll k = Ret false.

(** What [callback] answers when invoked on tick [N]. *)
Definition callback_result (N : nat) : result unit :=
  fst (callback (snd (conditionFn (world_before (N - 1))))).

(** The trace of [n] ticks on which [conditionFn] returned [false]. *)
Fixpoint falses (n : nat) : list (Z * event) :=
  match n with
  | O => []
  | S k => falses k ++ [(tick_time (S k), EvEval (Ret false))]
  end.

(** The closures of [sync] and of [async] in this invocation. *)
Definition the_sync_tick : task := SyncTick conditionFn callback 0.
Definition the_async_tick : task := AsyncTick conditionFn callback 0 0.

Definition is_tick (j : task) : Prop :=
  j = the_sync_tick \/ j = the_async_tick.

(** The host after [n] ticks on which [conditionFn] returned [false]:
    timer 1 is armed for tick [n + 1] and nothing else has happened. *)
Definition polling_state (j : task) (ps : list pstate) (n : nat) : host :=
  mkHost (tick_time n) 2 [mkTimer 1 (tick_time (S n)) delay j] [Some 1] ps
         (world_after n) n false (falses n).

(** The events of tick [N] when [conditionFn] returns [true] on it, up
    to the invocation of [callback]. *)
Definition closing (N : nat) : list (Z * event) :=
  [(tick_time N, EvEval (Ret true));
   (tick_time N, EvClear 1);
   (tick_time N, EvCall (callback_result N))].

(** The host of [sync] once [conditionFn] returned [true] on tick [N]. *)
Definition stopped_sync (N : nat) : host :=
  mkHost (tick_time N) 2 [] [Some 1] []
         (snd (callback (snd (conditionFn (world_before (N - 1)))))) N
         (match callback_result N with Ret _ => false | Throw _ => fatal end)
         (falses (N - 1) ++ closing N ++
          match callback_result N with
          | Ret _ => []
          | Throw e => [(tick_time N, EvUncaught e)]
          end).

(** The host of [async] once [conditionFn] returned [true] on tick [N]. *)
Definition stopped_async (N : nat) : host :=
  mkHost (tick_time N) 2 [] [Some 1]
         (match callback_result N with
          | Ret _ => [Fulfilled true]
          | Throw _ => [Pending]
          end)
         (snd (callback (snd (conditionFn (world_before (N - 1)))))) N
         (match callback_result N with Ret _ => false | Throw _ => fatal end)
         (falses (N - 1) ++ closing N ++
          match callback_result N with
          | Ret _ => [(tick_time N, EvSettle 0 (Fulfilled true))]
          | Throw e => [(tick_time N, EvUncaught e)]
          end).

(** A recorded settlement that fulfils promise 0 with [true] (any event
    that is not a settlement passes). *)
Definition settles_true (x : Z * event) : Prop :=
  match snd x with
  | EvSettle p o => p = 0 /\ o = Fulfilled true
  | _ => True
  end.

(** The invariant of a run, while the timer of the invocation is armed:
    [conditionFn] has not returned [true], [callback] has not been
    invoked, the promises are untouched, and every tick so far was an
    evaluation. *)
Definition polling (j : task) (ps : list pstate) (n : nat) (s : host) : Prop :=
  (exists t, timers s = [mkTimer 1 t delay j] /\ (t0 + delay <= t)%Z) /\
  frames s !! 0 = Some (Some 1) /\
  promises s = ps /\
  returned_true s = 0 /\
  calls s = 0 /\
  evaluations s = ticks s /\
  world s = world_after (ticks s) /\
  (halted s = false -> ticks s = n).

(** The invariant once the timer has been cleared. *)
Definition stopped (j : task) (ps : list pstate) (s : host) : Prop :=
  timers s = [] /\
  returned_true s = 1 /\
  calls s = 1 /\
  poll (ticks s - 1) = Ret true /\
  (promises s = ps \/ promises s = <[0 := Fulfilled true]> ps) /\
  (j = the_async_tick -> ps = [Pending] ->
   (exists tr t,
      trace s = tr ++ [(t, EvCall (Ret tt));
                       (t, EvSettle 0 (Fulfilled true))] /\
      promises s = [Fulfilled true]) \/
   (exists tr t e,
      trace s = tr ++ [(t, EvCall (Throw e)); (t, EvUncaught e)] /\
      promises s = [Pending])).

Definition inv (j : task) (ps : list pstate) (n : nat) (s : host) : Prop :=
  Forall settles_true (trace s) /\
  Forall (fun x => (t0 + delay <= fst x)%Z) (trace s) /\
  (polling j ps n s \/ stopped j ps s).

(** The two entry points, and the host right after either returned. *)
Inductive entry : Type := Sync | Async.

Definition started (e : entry) : host :=
  match e with
  | Sync => started_sync
  | Async => started_async
  end.

(** How many of the two outcomes of an invocation have occurred:
    [callback] invoked, and timeout signalled - the rejection of the
    promise being the only way to signal one to the caller. *)
Definition outcomes (s : host) : nat :=
  (if 0 <? calls s then 1 else 0) + (if 0 <? rejections s then 1 else 0).

(** Tick [n + 1] is about to run in [s] and either [conditionFn] throws
    [e], or it returns [true] and [callback] throws [e]. *)
Definition throws_during_tick (f : nat) (s : host) (e : exn) : Prop :=
  (exists w, conditionFn (world s) = (Throw e, w)) \/
  (exists w w' h, conditionFn (world s) = (Ret true, w) /\
                 callback w = (Throw e, w') /\
                 frames s !! f = Some (Some h)).

(** What is left of a host when promises are not observed: closures
    forget the promise they resolve, the promise store is empty and the
    trace has no settlements. *)
Definition forget_promise (j : task) : task :=
  match j with
  | SyncTick c cb f => SyncTick c cb f
  | AsyncTick c cb f _ => SyncTick c cb f
  end.
Definition forget_timer (t : timer) : timer :=
  mkTimer (tid t) (due t) (period t) (forget_promise (job t)).
Definition forget (a : host) : host :=
  mkHost (now a) (next_id a) (map forget_timer (timers a)) (frames a) []
         (world a) (ticks a) (halted a) (erase_settle (trace a)).

(** The trace of [n] ticks on none of which [conditionFn] returned
    [true], on a host that goes on after an uncaught throw: each
    evaluation, followed by the report of its throw when it threw. *)
Fixpoint history (n : nat) : list (Z * event) :=
  match n with
  | O => []
  | S k =>
      history k ++
      (tick_time (S k), EvEval (poll k)) ::
      match poll k with
      | Throw x => [(tick_time (S k), EvUncaught x)]
      | Ret _ => []
      end
  end.

(** The host after those [n] ticks: timer 1 is armed for tick [n + 1]. *)
Definition surviving_state (j : task) (ps : list pstate) (n : nat) : host :=
  mkHost (tick_time n) 2 [mkTimer 1 (tick_time (S n)) delay j] [Some 1] ps
         (world_after n) n false (history n).

(** The frame a closure reads [interval] from. *)
Definition frame_of (j : task) : nat :=
  match j with
  | SyncTick _ _ f => f
  | AsyncTick _ _ f _ => f
  end.

(** An armed timer owns its handle: the handle has been handed out, and
    the [const interval] of the closure it runs holds that very handle. *)
Definition owns_handle (s : host) (t : timer) : Prop :=
  tid t < next_id s /\
  frames s !! frame_of (job t) = Some (Some (tid t)).

(** A host in which every armed timer owns its handle - what any
    sequence of calls of [sync] and [async] and of turns of the event
    loop makes of a freshly started host. *)
Definition well_formed (s : host) : Prop :=
  Forall (owns_handle s) (timers s).

(** ** Basic facts *)

Ltac host_simpl :=
  cbv [set_now set_next_id set_timers set_frames set_promises set_world
       set_ticks set_halted record
       now next_id timers frames promises world ticks halted trace].

Lemma occurrences_app p tr1 tr2 :
  occurrences p (tr1 ++ tr2) = occurrences p tr1 + occurrences p tr2.
Proof.
  induction tr1 as [|[t e] tr1 IH]; simpl; [reflexivity|].
  rewrite IH. lia.
Qed.

Lemma delay_nonneg : (0 <= delay)%Z.
Proof. unfold delay. lia. Qed.

Lemma delay_ge :
  host_delay (default 50%Z intervalMs) = default 50%Z intervalMs ->
  (default 50 intervalMs <= delay)%Z.
Proof. intros H. unfold delay. rewrite H. lia. Qed.

Lemma tick_time_S n : tick_time (S n) = (tick_time n + delay)%Z.
Proof. unfold tick_time. lia. Qed.

Lemma tick_time_0 : tick_time 0 = t0.
Proof. unfold tick_time. lia. Qed.

Lemma started_sync_eq : started_sync = polling_state the_sync_tick [] 0.
Proof.
  unfold started_sync, polling_state. rewrite tick_time_S, tick_time_0.
  reflexivity.
Qed.

Lemma started_async_eq :
  started_async = polling_state the_async_tick [Pending] 0.
Proof.
  unfold started_async, polling_state. rewrite tick_time_S, tick_time_0.
  reflexivity.
Qed.

(** With no timer armed the event loop has nothing to do. *)
Lemma step_idle s : timers s = [] -> step s = s.
Proof.
  intros H. unfold step. rewrite H. simpl. destruct (halted s); reflexivity.
Qed.

Lemma run_idle n s : timers s = [] -> run n s = s.
Proof.
  intros H. induction n as [|n IH]; simpl; [reflexivity|].
  rewrite IH. apply step_idle, H.
Qed.

Lemma run_plus n m s : run (n + m) s = run m (run n s).
Proof.
  induction m as [|m IH]; simpl.
  - rewrite Nat.add_0_r. reflexivity.
  - rewrite Nat.add_succ_r. simpl. rewrite IH. reflexivity.
Qed.

(** A halted host stays as it is. *)
Lemma step_halted s : halted s = true -> step s = s.
Proof. intros H. unfold step. rewrite H. reflexivity. Qed.

(** A tick on which [conditionFn] returns [false] only re-arms the timer. *)
Lemma step_polling j ps n :
  is_tick j -> poll n = Ret false ->
  step (polling_state j ps n) = polling_state j ps (S n).
Proof.
  intros Hj Hp. unfold poll, world_before in Hp.
  unfold step, polling_state. simpl.
  assert (Hmax : Z.max (tick_time n) (tick_time (S n)) = tick_time (S n)).
  { rewrite tick_time_S. pose proof delay_nonneg. lia. }
  rewrite Hmax.
  destruct Hj as [-> | ->]; simpl;
    unfold sync_tick, async_tick, bind, call_conditionFn; simpl;
    destruct (conditionFn (env n (world_after n))) as [r w] eqn:E;
    simpl in Hp; subst r; simpl;
    unfold rearm; simpl; rewrite ?E; simpl;
    rewrite <- (tick_time_S (S n)); reflexivity.
Qed.

Lemma run_polling j ps n :
  is_tick j -> (forall k, k < n -> poll k = Ret false) ->
  run n (polling_state j ps 0) = polling_state j ps n.
Proof.
  intros Hj. induction n as [|n IH]; intros Hp; simpl; [reflexivity|].
  rewrite IH by (intros k Hk; apply Hp; lia).
  apply step_polling; [exact Hj | apply Hp; lia].
Qed.

Lemma filter_own_timer h t d j :
  filter (fun u => tid u <> h) [mkTimer h t d j] = [].
Proof.
  rewrite filter_cons. simpl. rewrite decide_False by (intros H; apply H; reflexivity).
  reflexivity.
Qed.

(** The tick on which [conditionFn] returns [true]: [sync] clears the
    timer and invokes [callback]. *)
Lemma step_stop_sync n :
  poll n = Ret true ->
  step (polling_state the_sync_tick [] n) = stopped_sync (S n).
Proof.
  intros Hp. unfold poll in Hp. unfold stopped_sync, closing, callback_result.
  replace (S n - 1) with n by lia.
  unfold step, polling_state. simpl.
  assert (Hmax : Z.max (tick_time n) (tick_time (S n)) = tick_time (S n)).
  { rewrite tick_time_S. pose proof delay_nonneg. lia. }
  rewrite Hmax.
  unfold sync_tick, bind, call_conditionFn. simpl.
  fold (world_before n).
  destruct (conditionFn (world_before n)) as [r w] eqn:E.
  simpl in Hp. subst r. simpl.
  unfold call_callback. simpl.
  destruct (callback w) as [[[]|e] w'] eqn:E'; simpl;
    rewrite filter_own_timer; unfold rearm, report; simpl; host_simpl;
    rewrite <- !app_assoc; reflexivity.
Qed.

(** The same tick in [async]: after [callback] returned, the promise is
    fulfilled with [true]; if [callback] throws, [resolve] is not reached. *)
Lemma step_stop_async n :
  poll n = Ret true ->
  step (polling_state the_async_tick [Pending] n) = stopped_async (S n).
Proof.
  intros Hp. unfold poll in Hp. unfold stopped_async, closing, callback_result.
  replace (S n - 1) with n by lia.
  unfold step, polling_state. simpl.
  assert (Hmax : Z.max (tick_time n) (tick_time (S n)) = tick_time (S n)).
  { rewrite tick_time_S. pose proof delay_nonneg. lia. }
  rewrite Hmax.
  unfold async_tick, bind, call_conditionFn. simpl.
  fold (world_before n).
  destruct (conditionFn (world_before n)) as [r w] eqn:E.
  simpl in Hp. subst r. simpl.
  unfold call_callback. simpl.
  destruct (callback w) as [[[]|e] w'] eqn:E'; simpl;
    rewrite filter_own_timer; unfold rearm, report, resolve; simpl;
    host_simpl; unfold settle; host_simpl; simpl; host_simpl;
    rewrite <- !app_assoc; reflexivity.
Qed.

(** The whole run of [sync] when [conditionFn] first returns [true] on
    tick [N]. *)
Lemma run_sync N n :
  first_true_on_tick N ->
  run n started_sync =
  if n <? N then polling_state the_sync_tick [] n else stopped_sync N.
Proof.
  intros (HN & Ht & Hf). rewrite started_sync_eq.
  destruct (Nat.ltb_spec n N) as [Hlt | Hge].
  - apply run_polling; [left; reflexivity|]. intros k Hk. apply Hf. lia.
  - replace n with ((N - 1) + 1 + (n - N)) by lia.
    rewrite !run_plus, run_polling; [|left; reflexivity|exact Hf].
    simpl. rewrite step_stop_sync by exact Ht.
    replace (S (N - 1)) with N by lia. apply run_idle. reflexivity.
Qed.

(** The whole run of [async] in the same situation. *)
Lemma run_async N n :
  first_true_on_tick N ->
  run n started_async =
  if n <? N then polling_state the_async_tick [Pending] n
  else stopped_async N.
Proof.
  intros (HN & Ht & Hf). rewrite started_async_eq.
  destruct (Nat.ltb_spec n N) as [Hlt | Hge].
  - apply run_polling; [right; reflexivity|]. intros k Hk. apply Hf. lia.
  - replace n with ((N - 1) + 1 + (n - N)) by lia.
    rewrite !run_plus, run_polling; [|right; reflexivity|exact Hf].
    simpl. rewrite step_stop_async by exact Ht.
    replace (S (N - 1)) with N by lia. apply run_idle. reflexivity.
Qed.

Lemma occurrences_falses p n :
  p (EvEval (Ret false)) = false -> occurrences p (falses n) = 0.
Proof.
  intros Hp. induction n as [|n IH]; simpl; [reflexivity|].
  rewrite occurrences_app, IH. simpl. rewrite Hp. reflexivity.
Qed.

(** ** The invariant of an arbitrary run

    Nothing is assumed about [conditionFn] and [callback] here: either
    may throw on any tick. *)

Lemma inv_start j ps : inv j ps 0 (polling_state j ps 0).
Proof.
  unfold inv, polling_state. simpl.
  split; [constructor | split; [constructor | left]].
  unfold polling. simpl. repeat split; try reflexivity.
  exists (tick_time 1). split; [reflexivity|]. unfold tick_time. lia.
Qed.

Ltac inv_traces :=
  split; [| split];
  [ rewrite ?Forall_app, ?Forall_cons; unfold settles_true; simpl;
    once intuition (auto using Forall_nil_2)
  | rewrite ?Forall_app, ?Forall_cons; simpl;
    once intuition (auto using Forall_nil_2)
  | ].

Ltac inv_counts :=
  unfold returned_true, calls, evaluations; simpl;
  rewrite ?occurrences_app; simpl; try lia.

Ltac inv_stopped :=
  unfold inv; simpl; inv_traces; right; unfold stopped; simpl;
  split; [reflexivity|]; split; [inv_counts|]; split; [inv_counts|];
  split;
  [ unfold poll, world_before; rewrite Nat.sub_0_r;
    match goal with E : conditionFn _ = _ |- _ => rewrite E end; reflexivity
  | split;
    [ first [left; reflexivity | right; reflexivity]
    | intros Hasync Hps;
      first
        [ unfold the_sync_tick, the_async_tick in Hasync; discriminate Hasync
        | subst;
          first
            [ left; eexists _, _; split;
              [exact (eq_sym (app_assoc _ [_] [_])) | reflexivity]
            | right; eexists _, _, _; split;
              [exact (eq_sym (app_assoc _ [_] [_])) | reflexivity]
            | match goal with Eps : _ !! 0 = _ |- _ =>
                simpl in Eps; discriminate Eps end ] ] ] ].

Ltac inv_polling :=
  unfold inv; simpl; inv_traces; left; unfold polling; simpl;
  split; [eexists; split; [reflexivity | lia]|];
  split; [assumption|]; split; [reflexivity|];
  split; [inv_counts|]; split; [inv_counts|]; split; [inv_counts|];
  split;
  [ match goal with E : conditionFn _ = _ |- _ => rewrite E end; reflexivity
  | intros _; reflexivity ].

Lemma step_inv j ps n s :
  is_tick j -> inv j ps n s -> inv j ps (S n) (step s).
Proof.
  intros Hj (Hs & Ht & [Hp | Hst]).
  2:{ rewrite step_idle by apply Hst.
      split; [exact Hs | split; [exact Ht | right; exact Hst]]. }
  destruct Hp as ((t & Htm & Hle) & Hfr & Hpr & Hrt & Hc & Hev & Hw & Htk).
  destruct (halted s) eqn:Hh.
  { rewrite step_halted by exact Hh.
    split; [exact Hs | split; [exact Ht | left]].
    repeat split; try assumption.
    - exists t. split; assumption.
    - intros Hh'. congruence. }
  specialize (Htk eq_refl).
  pose proof delay_nonneg as Hd.
  unfold returned_true, calls, evaluations in *.
  destruct s as [nw ni tms frs prs wd tk hl tr]. simpl in *. subst.
  unfold step. simpl.
  assert (Hnow : (t0 + delay <= Z.max nw t)%Z) by lia.
  set (nw' := Z.max nw t) in *. clearbody nw'.
  destruct (conditionFn (env (occurrences is_eval tr)
              (world_after (occurrences is_eval tr)))) as [r w] eqn:E.
  destruct r as [[|]|e].
  - (* conditionFn returned true *)
    destruct (callback w) as [r' w'] eqn:E'.
    destruct Hj as [-> | ->]; simpl;
      unfold sync_tick, async_tick, bind, call_conditionFn; simpl;
      rewrite E; simpl; unfold read_const; simpl; rewrite Hfr; simpl;
      rewrite filter_own_timer; unfold call_callback; simpl; rewrite E';
      destruct r' as [[]|e']; simpl;
      unfold rearm, report, resolve, settle; simpl;
      try (destruct (ps !! 0) as [[| |]|] eqn:Eps; simpl);
      host_simpl; inv_stopped.
  - (* conditionFn returned false *)
    destruct Hj as [-> | ->]; simpl;
      unfold sync_tick, async_tick, bind, call_conditionFn; simpl;
      rewrite E; simpl; unfold rearm; simpl; inv_polling.
  - (* conditionFn threw *)
    destruct Hj as [-> | ->]; simpl;
      unfold sync_tick, async_tick, bind, call_conditionFn; simpl;
      rewrite E; simpl; unfold rearm, report; simpl; inv_polling.
Qed.

Lemma run_inv j ps n :
  is_tick j -> inv j ps n (run n (polling_state j ps 0)).
Proof.
  intros Hj. induction n as [|n IH]; simpl.
  - apply inv_start.
  - apply step_inv; assumption.
Qed.

Lemma started_inv e n :
  exists j ps, is_tick j /\ inv j ps n (run n (started e)) /\
    (e = Sync -> ps = []) /\ (e = Async -> ps = [Pending] /\ j = the_async_tick).
Proof.
  destruct e; simpl.
  - exists the_sync_tick, []. rewrite started_sync_eq.
    split; [left; reflexivity|].
    split; [apply run_inv; left; reflexivity|].
    split; [reflexivity | discriminate].
  - exists the_async_tick, [Pending]. rewrite started_async_eq.
    split; [right; reflexivity|].
    split; [apply run_inv; right; reflexivity|].
    split; [discriminate | split; reflexivity].
Qed.

Lemma no_rejections tr : Forall settles_true tr -> occurrences is_reject tr = 0.
Proof.
  induction 1 as [|[t ev] tr Hx _ IH]; simpl; [reflexivity|].
  rewrite IH. destruct ev as [| | |p o|]; try reflexivity.
  destruct Hx as [_ ->]. reflexivity.
Qed.

(** Once the timer is cleared, further turns of the loop change nothing. *)
Lemma stopped_forever j ps s m : stopped j ps s -> run m s = s.
Proof. intros (Htm & _). apply run_idle, Htm. Qed.

Lemma inv_returned_true j ps n s :
  inv j ps n s -> 0 < returned_true s -> stopped j ps s.
Proof.
  intros (_ & _ & [Hp | Hst]) H; [|exact Hst].
  destruct Hp as (_ & _ & _ & Hrt & _). lia.
Qed.

Lemma inv_called j ps n s :
  inv j ps n s -> 0 < calls s -> stopped j ps s.
Proof.
  intros (_ & _ & [Hp | Hst]) H; [|exact Hst].
  destruct Hp as (_ & _ & _ & _ & Hc & _). lia.
Qed.

Lemma inv_calls_le j ps n s : inv j ps n s -> calls s <= 1.
Proof.
  intros (_ & _ & [Hp | Hst]).
  - destruct Hp as (_ & _ & _ & _ & Hc & _). lia.
  - destruct Hst as (_ & _ & Hc & _). lia.
Qed.

(** ** [sync] is [async] without the promise *)

Lemma earliest_forget ts :
  earliest (map forget_timer ts) = option_map forget_timer (earliest ts).
Proof.
  induction ts as [|t ts IH]; simpl; [reflexivity|].
  rewrite IH. destruct (earliest ts) as [u|]; simpl; [|reflexivity].
  destruct (due u <? due t)%Z; reflexivity.
Qed.

Lemma filter_forget h ts :
  filter (fun u => tid u <> h) (map forget_timer ts) =
  map forget_timer (filter (fun u => tid u <> h) ts).
Proof.
  induction ts as [|t ts IH]; simpl; [reflexivity|].
  rewrite !filter_cons. simpl. destruct (decide (tid t <> h)); simpl;
    rewrite IH; reflexivity.
Qed.

Lemma rearm_forget h nw ts :
  map (fun u => if decide (tid u = h)
                then mkTimer (tid u) (nw + period u) (period u) (job u)
                else u) (map forget_timer ts) =
  map forget_timer
    (map (fun u => if decide (tid u = h)
                   then mkTimer (tid u) (nw + period u) (period u) (job u)
                   else u) ts).
Proof.
  induction ts as [|t ts IH]; simpl; [reflexivity|].
  rewrite IH. destruct (decide (tid t = h)); reflexivity.
Qed.

Lemma erase_settle_snoc tr t e :
  erase_settle (tr ++ [(t, e)]) =
  erase_settle tr ++ (if is_settle e then [] else [(t, e)]).
Proof.
  unfold erase_settle. rewrite filter_app. f_equal.
  rewrite filter_cons. simpl. destruct (is_settle e); reflexivity.
Qed.

Lemma forget_task j a :
  run_task (forget_promise j) (forget a) =
  (fst (run_task j a), forget (snd (run_task j a))).
Proof.
  destruct a as [nw ni tms frs prs wd tk hl tr].
  destruct j as [c cb f | c cb f q]; simpl.
  - unfold sync_tick, bind, call_conditionFn. simpl.
    destruct (c wd) as [[[|]|e] w]; simpl.
    + unfold read_const. simpl. destruct (frs !! f) as [[h'|]|]; simpl.
      * unfold call_callback. simpl. destruct (cb w) as [r w']. simpl.
        unfold forget. simpl. rewrite !erase_settle_snoc, filter_forget. simpl.
        reflexivity.
      * unfold forget; simpl. rewrite !erase_settle_snoc. reflexivity.
      * unfold forget; simpl. rewrite !erase_settle_snoc. reflexivity.
    + unfold forget; simpl. rewrite !erase_settle_snoc. reflexivity.
    + unfold forget; simpl. rewrite !erase_settle_snoc. reflexivity.
  - unfold sync_tick, async_tick, bind, call_conditionFn. simpl.
    destruct (c wd) as [[[|]|e] w]; simpl.
    + unfold read_const. simpl. destruct (frs !! f) as [[h'|]|]; simpl.
      * unfold call_callback. simpl. destruct (cb w) as [[[]|e] w']; simpl.
        -- unfold resolve, settle. simpl.
           destruct (prs !! q) as [[| |]|]; simpl;
           unfold forget; simpl; rewrite !erase_settle_snoc, filter_forget; simpl;
           rewrite ?app_nil_r; reflexivity.
        -- unfold forget. simpl. rewrite !erase_settle_snoc, filter_forget. simpl.
           reflexivity.
      * unfold forget; simpl. rewrite !erase_settle_snoc. reflexivity.
      * unfold forget; simpl. rewrite !erase_settle_snoc. reflexivity.
    + unfold forget; simpl. rewrite !erase_settle_snoc. reflexivity.
    + unfold forget; simpl. rewrite !erase_settle_snoc. reflexivity.
Qed.

Lemma forget_rearm t a : rearm (forget_timer t) (forget a) = forget (rearm t a).
Proof.
  destruct a. unfold rearm, forget. simpl. rewrite rearm_forget. reflexivity.
Qed.

Lemma forget_report e a : report e (forget a) = forget (report e a).
Proof.
  destruct a. unfold report, forget. simpl. rewrite erase_settle_snoc. reflexivity.
Qed.

Lemma forget_step a : step (forget a) = forget (step a).
Proof.
  unfold step.
  replace (halted (forget a)) with (halted a) by (destruct a; reflexivity).
  destruct (halted a); [reflexivity|].
  replace (timers (forget a)) with (map forget_timer (timers a))
    by (destruct a; reflexivity).
  rewrite earliest_forget.
  destruct (earliest (timers a)) as [t|]; cbn [option_map]; [|reflexivity].
  change (job (forget_timer t)) with (forget_promise (job t)).
  change (due (forget_timer t)) with (due t).
  replace (set_ticks (S (ticks (forget a)))
          (set_world (env (ticks (forget a)) (world (forget a)))
             (set_now (now (forget a) `max` due t) (forget a))))
    with (forget (set_ticks (S (ticks a))
          (set_world (env (ticks a) (world a))
             (set_now (now a `max` due t) a))))
    by (destruct a; reflexivity).
  rewrite forget_task.
  destruct (run_task (job t) _) as [[[]|e] a']; cbn [fst snd].
  - apply forget_rearm.
  - rewrite forget_rearm. apply forget_report.
Qed.
Lemma forget_run n a : run n (forget a) = forget (run n a).
Proof.
  induction n as [|n IH]; simpl; [reflexivity|].
  rewrite IH. apply forget_step.
Qed.

Lemma forget_started : forget started_async = started_sync.
Proof. reflexivity. Qed.

(** * Properties of [sync] and [async] *)

Lemma call_results_app tr1 tr2 :
  call_results (tr1 ++ tr2) = call_results tr1 ++ call_results tr2.
Proof.
  induction tr1 as [|[t ev] tr1 IH]; simpl; [reflexivity|].
  destruct ev; simpl; rewrite IH; reflexivity.
Qed.

Lemma call_results_falses n : call_results (falses n) = [].
Proof.
  induction n as [|n IH]; simpl; [reflexivity|].
  rewrite call_results_app, IH. reflexivity.
Qed.

(** C3.  When [conditionFn] returns [false] on ticks 1 .. N-1 and [true]
    on tick N, both [sync] and [async] have invoked [callback] zero times
    before tick N and exactly once from tick N on, however long the event
    loop keeps running: before tick N no invocation is recorded and the
    world is what the evaluations and the rest of the program made of it;
    from tick N on the one recorded invocation has the outcome of
    [callback] applied to the world the evaluation that returned [true]
    left, and the world is the one that application left. *)
Theorem callback_exactly_once_on_tick_N (e : entry) (N n : nat) :
  first_true_on_tick N ->
  calls (run n (started e)) = (if n <? N then 0 else 1) /\
  call_results (trace (run n (started e))) =
    (if n <? N then [] else [callback_result N]) /\
  world (run n (started e)) =
    (if n <? N then world_after n
     else snd (callback (snd (conditionFn (world_before (N - 1)))))).
Proof.
  intros HN. destruct e; simpl; [rewrite (run_sync N) | rewrite (run_async N)];
    try exact HN; destruct (n <? N); unfold calls; simpl;
    rewrite ?occurrences_app, ?call_results_app, ?call_results_falses,
      ?occurrences_falses by reflexivity;
    try (repeat split; reflexivity); simpl;
    destruct (callback_result N); repeat split; reflexivity.
Qed.

(** C4.  In every run of [sync] or [async], whatever [conditionFn] and
    [callback] do: once an evaluation of [conditionFn] has returned
    [true], no timer is armed any more and the number of evaluations
    never grows again. *)
Theorem no_evaluation_after_true (e : entry) (n m : nat) :
  0 < returned_true (run n (started e)) ->
  timers (run n (started e)) = [] /\
  returned_true (run n (started e)) = 1 /\
  evaluations (run (n + m) (started e)) = evaluations (run n (started e)).
Proof.
  intros H. destruct (started_inv e n) as (j & ps & _ & Hinv & _).
  pose proof (inv_returned_true _ _ _ _ Hinv H) as Hst.
  rewrite run_plus, (stopped_forever j ps (run n (started e)) m Hst).
  destruct Hst as (Htm & Hrt & _). auto.
Qed.

(** C5.  In every run of [sync] or [async]: at most one of the two
    outcomes - [callback] invoked, timeout signalled - has occurred,
    [callback] has been invoked at most once and no timeout has been
    signalled; and once an outcome has occurred no timer is armed and
    [conditionFn] is not evaluated again. *)
Theorem callback_or_timeout_then_stop (e : entry) (n m : nat) :
  outcomes (run n (started e)) <= 1 /\
  calls (run n (started e)) <= 1 /\
  rejections (run n (started e)) = 0 /\
  (0 < outcomes (run n (started e)) ->
   timers (run n (started e)) = [] /\
   evaluations (run (n + m) (started e)) = evaluations (run n (started e))).
Proof.
  destruct (started_inv e n) as (j & ps & _ & Hinv & _).
  assert (Hrej : rejections (run n (started e)) = 0).
  { apply no_rejections, Hinv. }
  pose proof (inv_calls_le _ _ _ _ Hinv) as Hle.
  unfold outcomes. rewrite Hrej. simpl.
  split; [destruct (0 <? calls _); lia|].
  split; [exact Hle|]. split; [reflexivity|].
  destruct (Nat.ltb_spec 0 (calls (run n (started e)))) as [Hc | Hc];
    [intros _ | lia].
  pose proof (inv_called _ _ _ _ Hinv Hc) as Hst.
  rewrite run_plus, (stopped_forever j ps (run n (started e)) m Hst).
  split; [apply Hst | reflexivity].
Qed.

(** C6 (amended).  In every run of [async]: once an evaluation of
    [conditionFn] has returned [true], and provided no invocation of
    [callback] threw, [callback] has been invoked exactly once, the
    promise is fulfilled with [true], its settlement is recorded right
    after the invocation of [callback], and the host stays as it is. *)
Theorem async_fulfils_after_callback (n m : nat) :
  0 < returned_true (run n started_async) ->
  failed_calls (run n started_async) = 0 ->
  calls (run n started_async) = 1 /\
  promises (run n started_async) = [Fulfilled true] /\
  (exists tr t,
     trace (run n started_async) =
     tr ++ [(t, EvCall (Ret tt)); (t, EvSettle 0 (Fulfilled true))]) /\
  run (n + m) started_async = run n started_async.
Proof.
  intros Htrue Hok.
  destruct (started_inv Async n) as (j & ps & _ & Hinv & _ & Hps).
  destruct (Hps eq_refl) as [-> ->]. simpl in Hinv.
  pose proof (inv_returned_true _ _ _ _ Hinv Htrue) as Hst.
  rewrite run_plus, (stopped_forever _ _ _ m Hst).
  destruct Hst as (_ & _ & Hc & _ & _ & Hend).
  destruct (Hend eq_refl eq_refl)
    as [(tr & t & Htr & Hp) | (tr & t & e & Htr & _)].
  - repeat split; try assumption. exists tr, t. exact Htr.
  - exfalso. unfold failed_calls in Hok. rewrite Htr in Hok.
    rewrite occurrences_app in Hok. simpl in Hok. lia.
Qed.

(** C7 (amended).  Neither call evaluates [conditionFn]: [sync]
    returns, and [async] returns its pending promise, with the timer
    armed one delay ahead, the world untouched and nothing recorded; in
    every later state of the run, every recorded event - so every
    evaluation - is at least the delay the host armed after the call;
    and it is at least [intervalMs] after the call whenever the host
    arms the delay it was asked for. *)
Theorem no_evaluation_at_call_time (e : entry) (n : nat) :
  fst (sync conditionFn callback intervalMs (boot t0 w0)) = Ret tt /\
  fst (async conditionFn callback intervalMs (boot t0 w0)) = Ret 0 /\
  promises started_async = [Pending] /\
  trace (started e) = [] /\
  world (started e) = w0 /\
  now (started e) = t0 /\
  map due (timers (started e)) = [(t0 + delay)%Z] /\
  Forall (fun x => (t0 + delay <= fst x)%Z) (trace (run n (started e))) /\
  (host_delay (default 50%Z intervalMs) = default 50%Z intervalMs ->
   Forall (fun x => (t0 + default 50 intervalMs <= fst x)%Z)
          (trace (run n (started e)))).
Proof.
  do 3 (split; [reflexivity|]).
  do 4 (split; [destruct e; reflexivity|]).
  destruct (started_inv e n) as (j & ps & _ & (_ & Ht & _) & _).
  split; [exact Ht|]. intros Hh.
  eapply Forall_impl; [exact Ht|].
  intros x Hx. simpl in Hx. pose proof (delay_ge Hh). lia.
Qed.

(** C8.  When [conditionFn] throws on a tick, or returns [true] and
    [callback] throws, the arrow function of [sync] and the one of
    [async] both end by that very throw; the one of [async] leaves the
    promise store as it was, and records no settlement. *)
Theorem throws_are_not_caught (f p : nat) (s : host) (e : exn) :
  throws_during_tick f s e ->
  fst (sync_tick conditionFn callback f s) = Throw e /\
  fst (async_tick conditionFn callback f p s) = Throw e /\
  promises (snd (async_tick conditionFn callback f p s)) = promises s /\
  occurrences is_settle (trace (snd (async_tick conditionFn callback f p s)))
  = occurrences is_settle (trace s).
Proof.
  destruct s as [nw ni tms frs prs wd tk hl tr].
  intros [(w & Hc) | (w & w' & h & Hc & Hcb & Hf)]; simpl in *;
    unfold sync_tick, async_tick, bind, call_conditionFn; simpl;
    rewrite Hc; simpl.
  - rewrite occurrences_app. simpl. repeat split; try reflexivity. lia.
  - unfold read_const. simpl. rewrite Hf. simpl.
    unfold call_callback. simpl. rewrite Hcb. simpl.
    rewrite !occurrences_app. simpl. repeat split; try reflexivity. lia.
Qed.


Lemma returned_le_calls tr :
  occurrences is_returned_call tr <= occurrences is_call tr.
Proof.
  induction tr as [|[t ev] tr IH]; simpl; [lia|].
  destruct ev as [| |[|]| |]; simpl; lia.
Qed.

(** C10 (amended).  After any number of turns of the event loop, the
    host of [sync] is the host of [async] with the promise left out: same
    clock, same armed timer, same world, and the same evaluations,
    clearings, invocations and uncaught throws at the same times; what
    [async] adds is its promise, which is fulfilled with [true] once an
    invocation of [callback] has returned and pending otherwise, and
    every settlement it records is that fulfilment. *)
Theorem sync_is_async_without_promise (n : nat) :
  run n started_sync = forget (run n started_async) /\
  trace (run n started_sync) = erase_settle (trace (run n started_async)) /\
  world (run n started_sync) = world (run n started_async) /\
  Forall settles_true (trace (run n started_async)) /\
  promises (run n started_async) =
    (if 0 <? returned_calls (run n started_async)
     then [Fulfilled true] else [Pending]).
Proof.
  assert (H : run n started_sync = forget (run n started_async)).
  { rewrite <- forget_run, forget_started. reflexivity. }
  split; [exact H|]. rewrite H.
  split; [reflexivity|]. split; [reflexivity|].
  destruct (started_inv Async n) as (j & ps & _ & Hinv & _ & Hps).
  destruct (Hps eq_refl) as [-> ->]. simpl in Hinv.
  split; [apply Hinv|].
  destruct Hinv as (_ & _ & [Hp | Hst]).
  - destruct Hp as (_ & _ & Hpr & _ & Hc & _).
    pose proof (returned_le_calls (trace (run n started_async))) as Hle.
    unfold returned_calls. unfold calls in Hc.
    replace (occurrences is_returned_call (trace (run n started_async)))
      with 0 by lia.
    exact Hpr.
  - destruct Hst as (_ & _ & Hc & _ & _ & Hend).
    unfold returned_calls. unfold calls in Hc.
    destruct (Hend eq_refl eq_refl)
      as [(tr & t & Htr & Hp) | (tr & t & x & Htr & Hp)];
      rewrite Htr in *; rewrite occurrences_app in *; simpl in *.
    + rewrite Hp. destruct (occurrences is_returned_call tr); reflexivity.
    + pose proof (returned_le_calls tr) as Hle.
      replace (occurrences is_returned_call tr) with 0 by lia.
      exact Hp.
Qed.

(** * Further properties of a run *)

Lemma evaluations_falses n : occurrences is_eval (falses n) = n.
Proof.
  induction n as [|n IH]; simpl; [reflexivity|].
  rewrite occurrences_app, IH. simpl. lia.
Qed.

(** X1.  When [conditionFn] returns [false] on ticks 1 .. N-1 and [true]
    on tick N, the run of [sync] or [async] is on schedule, the ticks
    being one armed delay apart: after [n]
    turns with [n < N] the clock is at tick [n], [conditionFn] has been
    evaluated [n] times and the timer is due one delay later; from turn
    N on, the clock stays at tick N, [conditionFn] has been evaluated N
    times in all, no timer is armed, [callback] was invoked at the time
    of tick N, and the world is the one [callback] left when run right
    after the evaluation that returned [true]. *)
Theorem run_on_schedule (e : entry) (N n : nat) :
  first_true_on_tick N ->
  if n <? N then
    now (run n (started e)) = tick_time n /\
    evaluations (run n (started e)) = n /\
    world (run n (started e)) = world_after n /\
    map due (timers (run n (started e))) = [tick_time (S n)]
  else
    now (run n (started e)) = tick_time N /\
    evaluations (run n (started e)) = N /\
    world (run n (started e)) =
      snd (callback (snd (conditionFn (world_before (N - 1))))) /\
    timers (run n (started e)) = [] /\
    In (tick_time N, EvCall (callback_result N))
       (trace (run n (started e))).
Proof.
  intros HN. pose proof HN as (H1 & _).
  destruct e; simpl; [rewrite (run_sync N) | rewrite (run_async N)];
    try exact HN; destruct (n <? N); unfold evaluations; simpl.
  1,3: repeat split; try reflexivity; apply evaluations_falses.
  all: rewrite !occurrences_app, evaluations_falses; unfold closing; simpl.
  all: repeat split; try reflexivity.
  1,3: destruct (callback_result N); simpl; lia.
  all: apply in_or_app; right; simpl; auto.
Qed.

(** X2.  In the same situation the whole history of the run is known,
    from turn N on: N-1 evaluations returning [false], one per tick,
    the ticks being one armed delay apart;
    then, all at the time of tick N and in this order, the evaluation
    returning [true], [clearInterval], the invocation of [callback], and
    last the fulfilment of the promise ([async], [callback] returned) or
    the report of the uncaught throw ([callback] threw); the promise of
    [async] is fulfilled in the first case and pending in the second. *)
Theorem history_of_a_run (N n : nat) :
  first_true_on_tick N ->
  N <= n ->
  trace (run n started_sync) =
    falses (N - 1) ++
    [(tick_time N, EvEval (Ret true));
     (tick_time N, EvClear 1);
     (tick_time N, EvCall (callback_result N))] ++
    match callback_result N with
    | Ret _ => []
    | Throw x => [(tick_time N, EvUncaught x)]
    end /\
  trace (run n started_async) =
    falses (N - 1) ++
    [(tick_time N, EvEval (Ret true));
     (tick_time N, EvClear 1);
     (tick_time N, EvCall (callback_result N))] ++
    match callback_result N with
    | Ret _ => [(tick_time N, EvSettle 0 (Fulfilled true))]
    | Throw x => [(tick_time N, EvUncaught x)]
    end /\
  promises (run n started_async) =
    match callback_result N with
    | Ret _ => [Fulfilled true]
    | Throw _ => [Pending]
    end.
Proof.
  intros HN Hn. apply Nat.ltb_ge in Hn.
  rewrite (run_sync N n HN), (run_async N n HN), Hn.
  repeat split; reflexivity.
Qed.

(** ** A condition that throws, on a host that goes on *)

Lemma step_surviving j ps n :
  fatal = false -> is_tick j -> poll n <> Ret true ->
  step (surviving_state j ps n) = surviving_state j ps (S n).
Proof.
  intros Hf Hj Hp. unfold step, surviving_state. simpl.
  assert (Hmax : Z.max (tick_time n) (tick_time (S n)) = tick_time (S n)).
  { rewrite tick_time_S. pose proof delay_nonneg. lia. }
  rewrite Hmax. unfold poll, world_before in *.
  destruct (conditionFn (env n (world_after n))) as [[[|]|x] w] eqn:E;
    simpl in Hp; [exfalso; apply Hp; reflexivity | |];
    destruct Hj as [-> | ->]; simpl;
    unfold sync_tick, async_tick, bind, call_conditionFn; simpl;
    rewrite E; simpl; unfold rearm, report; simpl; rewrite ?Hf;
    host_simpl; rewrite <- ?app_assoc; simpl;
    rewrite <- (tick_time_S (S n)); reflexivity.
Qed.

Lemma run_surviving j ps n :
  fatal = false -> is_tick j -> (forall k, k < n -> poll k <> Ret true) ->
  run n (surviving_state j ps 0) = surviving_state j ps n.
Proof.
  intros Hf Hj. induction n as [|n IH]; intros Hp; simpl; [reflexivity|].
  rewrite IH by (intros k Hk; apply Hp; lia).
  apply step_surviving; [exact Hf | exact Hj | apply Hp; lia].
Qed.

Lemma occurrences_history p n :
  (forall r, r <> Ret true -> p (EvEval r) = false) ->
  (forall x, p (EvUncaught x) = false) ->
  (forall k, k < n -> poll k <> Ret true) ->
  occurrences p (history n) = 0.
Proof.
  intros Hev Hun. induction n as [|n IH]; intros Hp; simpl; [reflexivity|].
  rewrite occurrences_app, IH by (intros k Hk; apply Hp; lia). simpl.
  rewrite Hev by (apply Hp; lia).
  destruct (poll n); simpl; rewrite ?Hun; reflexivity.
Qed.

Lemma evaluations_history n : occurrences is_eval (history n) = n.
Proof.
  induction n as [|n IH]; simpl; [reflexivity|].
  rewrite occurrences_app, IH. simpl. destruct (poll n); simpl; lia.
Qed.

(** The tick on which [conditionFn] returns [true], whatever was recorded
    before it. *)
Lemma step_stop_sync_after tr n :
  poll n = Ret true ->
  step (mkHost (tick_time n) 2
          [mkTimer 1 (tick_time (S n)) delay the_sync_tick] [Some 1] []
          (world_after n) n false tr) =
  mkHost (tick_time (S n)) 2 [] [Some 1] []
         (snd (callback (snd (conditionFn (world_before n))))) (S n)
         (match callback_result (S n) with Ret _ => false | Throw _ => fatal end)
         (tr ++ closing (S n) ++
          match callback_result (S n) with
          | Ret _ => []
          | Throw x => [(tick_time (S n), EvUncaught x)]
          end).
Proof.
  intros Hp. unfold poll in Hp. unfold closing, callback_result.
  replace (S n - 1) with n by lia.
  unfold step. simpl.
  assert (Hmax : Z.max (tick_time n) (tick_time (S n)) = tick_time (S n)).
  { rewrite tick_time_S. pose proof delay_nonneg. lia. }
  rewrite Hmax.
  unfold sync_tick, bind, call_conditionFn. simpl.
  fold (world_before n).
  destruct (conditionFn (world_before n)) as [r w] eqn:E.
  simpl in Hp. subst r. simpl.
  unfold call_callback. simpl.
  destruct (callback w) as [[[]|x] w'] eqn:E'; simpl;
    rewrite filter_own_timer; unfold rearm, report; simpl; host_simpl;
    rewrite <- !app_assoc; reflexivity.
Qed.

Lemma step_stop_async_after tr n :
  poll n = Ret true ->
  step (mkHost (tick_time n) 2
          [mkTimer 1 (tick_time (S n)) delay the_async_tick] [Some 1]
          [Pending] (world_after n) n false tr) =
  mkHost (tick_time (S n)) 2 [] [Some 1]
         (match callback_result (S n) with
          | Ret _ => [Fulfilled true]
          | Throw _ => [Pending]
          end)
         (snd (callback (snd (conditionFn (world_before n))))) (S n)
         (match callback_result (S n) with Ret _ => false | Throw _ => fatal end)
         (tr ++ closing (S n) ++
          match callback_result (S n) with
          | Ret _ => [(tick_time (S n), EvSettle 0 (Fulfilled true))]
          | Throw x => [(tick_time (S n), EvUncaught x)]
          end).
Proof.
  intros Hp. unfold poll in Hp. unfold closing, callback_result.
  replace (S n - 1) with n by lia.
  unfold step. simpl.
  assert (Hmax : Z.max (tick_time n) (tick_time (S n)) = tick_time (S n)).
  { rewrite tick_time_S. pose proof delay_nonneg. lia. }
  rewrite Hmax.
  unfold async_tick, bind, call_conditionFn. simpl.
  fold (world_before n).
  destruct (conditionFn (world_before n)) as [r w] eqn:E.
  simpl in Hp. subst r. simpl.
  unfold call_callback. simpl.
  destruct (callback w) as [[[]|x] w'] eqn:E'; simpl;
    rewrite filter_own_timer; unfold rearm, report, resolve; simpl;
    host_simpl; unfold settle; host_simpl; simpl; host_simpl;
    rewrite <- !app_assoc; reflexivity.
Qed.

(** X3.  On a host that goes on after an uncaught throw, a condition
    that throws does not end the polling: if the [N]-th evaluation is the
    first to return [true], the ones before having returned [false] or
    thrown, then [callback] has been invoked zero times before tick N and
    exactly once from tick N on, [conditionFn] has been evaluated once
    per turn up to N times, and the timer is cleared from tick N on. *)
Theorem polling_survives_throws (e : entry) (N n : nat) :
  fatal = false ->
  1 <= N ->
  poll (N - 1) = Ret true ->
  (forall k, k < N - 1 -> poll k <> Ret true) ->
  calls (run n (started e)) = (if n <? N then 0 else 1) /\
  evaluations (run n (started e)) = Nat.min n N /\
  (if n <? N then trace (run n (started e)) = history n
   else timers (run n (started e)) = []).
Proof.
  intros Hf HN Ht Hb.
  assert (Hcalls : occurrences is_call (history (N - 1)) = 0).
  { apply occurrences_history;
      [intros [[|]|x] Hr; reflexivity | reflexivity | exact Hb]. }
  assert (Hs : exists j ps, is_tick j /\
                 started e = surviving_state j ps 0 /\
                 (e = Sync -> j = the_sync_tick /\ ps = []) /\
                 (e = Async -> j = the_async_tick /\ ps = [Pending])).
  { destruct e; simpl.
    - exists the_sync_tick, []. split; [left; reflexivity|].
      rewrite started_sync_eq.
      split; [reflexivity|]. split; [auto | discriminate].
    - exists the_async_tick, [Pending]. split; [right; reflexivity|].
      rewrite started_async_eq.
      split; [reflexivity|]. split; [discriminate | auto]. }
  destruct Hs as (j & ps & Hj & -> & Hsy & Has).
  destruct (Nat.ltb_spec n N) as [Hlt | Hge].
  - rewrite run_surviving by (auto; intros k Hk; apply Hb; lia).
    unfold calls, evaluations. simpl.
    rewrite evaluations_history, Nat.min_l by lia.
    split; [|split; reflexivity].
    apply occurrences_history;
      [intros [[|]|x] Hr; reflexivity | reflexivity |].
    intros k Hk. apply Hb. lia.
  - replace n with ((N - 1) + 1 + (n - N)) by lia.
    rewrite !run_plus, run_surviving by auto. simpl.
    rewrite Nat.min_r by lia.
    unfold surviving_state.
    destruct e; [destruct (Hsy eq_refl) as [-> ->]
                | destruct (Has eq_refl) as [-> ->]];
      [rewrite step_stop_sync_after by exact Ht
      | rewrite step_stop_async_after by exact Ht];
      rewrite run_idle by reflexivity;
      unfold calls, evaluations, closing; simpl;
      rewrite !occurrences_app, Hcalls, evaluations_history; simpl;
      (split; [|split; [|reflexivity]]);
      destruct (callback_result (S (N - 1))); simpl; lia.
Qed.

(** ** A condition that throws, on a host that stops *)

Lemma step_throw j ps n x :
  fatal = true -> is_tick j -> poll n = Throw x ->
  step (polling_state j ps n) =
  mkHost (tick_time (S n)) 2 [mkTimer 1 (tick_time (S (S n))) delay j]
         [Some 1] ps (snd (conditionFn (world_before n))) (S n) true
         (falses n ++ [(tick_time (S n), EvEval (Throw x));
                       (tick_time (S n), EvUncaught x)]).
Proof.
  intros Hf Hj Hp. unfold step, polling_state. simpl.
  assert (Hmax : Z.max (tick_time n) (tick_time (S n)) = tick_time (S n)).
  { rewrite tick_time_S. pose proof delay_nonneg. lia. }
  rewrite Hmax. unfold poll in Hp. fold (world_before n).
  destruct (conditionFn (world_before n)) as [r w] eqn:E.
  simpl in Hp. subst r.
  destruct Hj as [-> | ->]; simpl;
    unfold sync_tick, async_tick, bind, call_conditionFn; simpl;
    rewrite E; simpl; unfold rearm, report; simpl; rewrite Hf;
    host_simpl; rewrite <- ?app_assoc; simpl;
    rewrite <- (tick_time_S (S n)); reflexivity.
Qed.

(** X4.  On a host that stops at an uncaught throw, a throw of
    [conditionFn] ends the run: if the evaluations before tick K returned
    [false] and the one of tick K throws, then from turn K on the host is
    halted, [conditionFn] has been evaluated K times, [callback] has
    never been invoked, the timer has not been cleared, and the promise
    of [async] is pending. *)
Theorem throw_halts_the_run (e : entry) (K n : nat) (x : exn) :
  fatal = true ->
  1 <= K ->
  (forall k, k < K - 1 -> poll k = Ret false) ->
  poll (K - 1) = Throw x ->
  K <= n ->
  halted (run n (started e)) = true /\
  evaluations (run n (started e)) = K /\
  calls (run n (started e)) = 0 /\
  map tid (timers (run n (started e))) = [1] /\
  promises (run n (started e)) = promises (started e) /\
  trace (run n (started e)) =
    falses (K - 1) ++ [(tick_time K, EvEval (Throw x));
                       (tick_time K, EvUncaught x)].
Proof.
  intros Hf HK Hb Hx Hn.
  assert (Hs : exists j ps, is_tick j /\ started e = polling_state j ps 0).
  { destruct e; simpl.
    - exists the_sync_tick, []. split; [left; reflexivity|].
      apply started_sync_eq.
    - exists the_async_tick, [Pending]. split; [right; reflexivity|].
      apply started_async_eq. }
  destruct Hs as (j & ps & Hj & ->).
  replace n with ((K - 1) + 1 + (n - K)) by lia.
  rewrite !run_plus, run_polling by auto. simpl.
  rewrite (step_throw j ps (K - 1) x Hf Hj Hx).
  replace (S (K - 1)) with K by lia.
  assert (Hrun : forall m s, halted s = true -> run m s = s).
  { intros m s Hh. induction m as [|m IH]; simpl; [reflexivity|].
    rewrite IH. apply step_halted, Hh. }
  rewrite Hrun by reflexivity.
  unfold evaluations, calls. simpl.
  rewrite !occurrences_app, evaluations_falses, occurrences_falses
    by reflexivity.
  simpl. repeat split; try reflexivity. lia.
Qed.

(** ** Several invocations on one host *)

Lemma earliest_elem ts t : earliest ts = Some t -> In t ts.
Proof.
  revert t. induction ts as [|u ts IH]; simpl; intros t H; [discriminate|].
  destruct (earliest ts) as [v|].
  - destruct (due v <? due u)%Z; inversion H; subst; auto.
  - inversion H. auto.
Qed.

(** What a tick does to the timer table: nothing, or the removal of the
    timers with the handle its closure reads. *)
Lemma run_task_timers j s :
  frames (snd (run_task j s)) = frames s /\
  next_id (snd (run_task j s)) = next_id s /\
  now (snd (run_task j s)) = now s /\
  (timers (snd (run_task j s)) = timers s \/
   exists h, frames s !! frame_of j = Some (Some h) /\
     timers (snd (run_task j s)) = filter (fun u => tid u <> h) (timers s)).
Proof.
  destruct s as [nw ni tms frs prs wd tk hl tr].
  destruct j as [c cb f | c cb f q]; simpl.
  - unfold sync_tick, bind, call_conditionFn. simpl.
    destruct (c wd) as [[[|]|x] w]; simpl; auto.
    unfold read_const. simpl.
    destruct (frs !! f) as [[h|]|] eqn:Ef; simpl; auto.
    unfold call_callback. simpl. destruct (cb w) as [r w']. simpl.
    repeat split. right. exists h. auto.
  - unfold async_tick, bind, call_conditionFn. simpl.
    destruct (c wd) as [[[|]|x] w]; simpl; auto.
    unfold read_const. simpl.
    destruct (frs !! f) as [[h|]|] eqn:Ef; simpl; auto.
    unfold call_callback. simpl. destruct (cb w) as [[[]|x] w']; simpl.
    + unfold resolve, settle. simpl.
      destruct (prs !! q) as [[| |]|]; simpl;
        repeat split; right; exists h; auto.
    + repeat split. right. exists h. auto.
Qed.

Lemma owns_handle_mono s s' t :
  next_id s <= next_id s' ->
  (forall f h, frames s !! f = Some (Some h) ->
               frames s' !! f = Some (Some h)) ->
  owns_handle s t -> owns_handle s' t.
Proof.
  intros Hn Hf [Hlt Hfr]. split; [lia | apply Hf, Hfr].
Qed.

Lemma frames_grow (frs : list (option nat)) h f h' :
  frs !! f = Some (Some h') ->
  <[length frs := Some h]> (frs ++ [None]) !! f = Some (Some h').
Proof.
  intros Hf. pose proof (lookup_lt_Some _ _ _ Hf) as Hlt.
  rewrite list_lookup_insert_ne by lia.
  rewrite lookup_app_l by exact Hlt. exact Hf.
Qed.

Lemma frames_own (frs : list (option nat)) h :
  <[length frs := Some h]> (frs ++ [None]) !! length frs = Some (Some h).
Proof.
  apply list_lookup_insert_eq. rewrite length_app. simpl. lia.
Qed.

(** X5.  Called on a well-formed host - at any time, whatever timers are
    armed - [sync] returns without a value after arming exactly one more
    timer, behind the existing ones: its handle is larger than every
    handle in use, it is due from now the delay the host arms for
    [intervalMs] (for 50 when omitted), and it runs the closure of this
    call; the existing timers, the promises, the world and the
    trace are untouched, and the host is well formed again. *)
Theorem sync_arms_one_fresh_timer (c : fn bool) (cb : fn unit)
    (iv : option Z) (s : host) :
  well_formed s ->
  fst (sync c cb iv s) = Ret tt /\
  timers (snd (sync c cb iv s)) =
    timers s ++ [mkTimer (next_id s)
                         (now s + Z.max 0 (host_delay (default 50%Z iv)))
                         (Z.max 0 (host_delay (default 50%Z iv)))
                         (SyncTick c cb (length (frames s)))] /\
  Forall (fun t => tid t < next_id s) (timers s) /\
  promises (snd (sync c cb iv s)) = promises s /\
  world (snd (sync c cb iv s)) = world s /\
  trace (snd (sync c cb iv s)) = trace s /\
  well_formed (snd (sync c cb iv s)).
Proof.
  intros Hwf. destruct s as [nw ni tms frs prs wd tk hl tr].
  unfold well_formed in *. simpl in *.
  do 2 (split; [reflexivity|]).
  split; [eapply Forall_impl; [exact Hwf | intros t Ht; apply Ht]|].
  do 3 (split; [reflexivity|]).
  apply Forall_app. split.
  - eapply Forall_impl; [exact Hwf|]. intros t Ht.
    eapply owns_handle_mono; [| |exact Ht]; simpl; [lia|].
    intros f h. apply frames_grow.
  - apply Forall_cons. split; [|apply Forall_nil_2].
    split; simpl; [lia | apply frames_own].
Qed.

(** X6.  Called on a well-formed host, [async] returns a new promise -
    the next free slot of the promise store, pending - after arming
    exactly one more timer with a handle larger than every handle in
    use, whose closure resolves that promise; the existing timers and
    promises, the world and the trace are untouched, and the host is
    well formed again. *)
Theorem async_arms_one_fresh_timer (c : fn bool) (cb : fn unit)
    (iv : option Z) (s : host) :
  well_formed s ->
  fst (async c cb iv s) = Ret (length (promises s)) /\
  timers (snd (async c cb iv s)) =
    timers s ++ [mkTimer (next_id s)
                         (now s + Z.max 0 (host_delay (default 50%Z iv)))
                         (Z.max 0 (host_delay (default 50%Z iv)))
                         (AsyncTick c cb (length (frames s))
                                    (length (promises s)))] /\
  Forall (fun t => tid t < next_id s) (timers s) /\
  promises (snd (async c cb iv s)) = promises s ++ [Pending] /\
  world (snd (async c cb iv s)) = world s /\
  trace (snd (async c cb iv s)) = trace s /\
  well_formed (snd (async c cb iv s)).
Proof.
  intros Hwf. destruct s as [nw ni tms frs prs wd tk hl tr].
  unfold well_formed in *. simpl in *.
  do 2 (split; [reflexivity|]).
  split; [eapply Forall_impl; [exact Hwf | intros t Ht; apply Ht]|].
  do 3 (split; [reflexivity|]).
  apply Forall_app. split.
  - eapply Forall_impl; [exact Hwf|]. intros t Ht.
    eapply owns_handle_mono; [| |exact Ht]; simpl; [lia|].
    intros f h. apply frames_grow.
  - apply Forall_cons. split; [|apply Forall_nil_2].
    split; simpl; [lia | apply frames_own].
Qed.

Lemma well_formed_step s : well_formed s -> well_formed (step s).
Proof.
  intros Hwf. unfold step. destruct (halted s); [exact Hwf|].
  destruct (earliest (timers s)) as [t|] eqn:Et; [|exact Hwf].
  set (s1 := set_ticks _ _).
  assert (Hwf1 : well_formed s1) by exact Hwf.
  destruct (run_task_timers (job t) s1) as (Hfr & Hid & _ & Htm).
  assert (Hwf2 : well_formed (snd (run_task (job t) s1))).
  { unfold well_formed. destruct Htm as [-> | (h & _ & ->)].
    - eapply Forall_impl; [exact Hwf1|]. intros u [Hu1 Hu2].
      split; [rewrite Hid | rewrite Hfr]; assumption.
    - apply Forall_forall. intros u Hu.
      apply list_elem_of_filter in Hu. destruct Hu as [_ Hu].
      unfold well_formed in Hwf1. rewrite Forall_forall in Hwf1.
      destruct (Hwf1 u Hu) as [Hu1 Hu2].
      split; [rewrite Hid | rewrite Hfr]; assumption. }
  assert (Hre : forall s2, well_formed s2 -> well_formed (rearm t s2)).
  { intros s2 H2. unfold well_formed, rearm in *. simpl.
    apply Forall_forall. intros u Hu. apply list_elem_of_In in Hu.
    apply in_map_iff in Hu. destruct Hu as (v & <- & Hv).
    apply list_elem_of_In in Hv. rewrite Forall_forall in H2.
    specialize (H2 v Hv). destruct (decide (tid v = tid t)); exact H2. }
  destruct (run_task (job t) s1) as [[[]|x] s2]; simpl in *.
  - apply Hre, Hwf2.
  - apply (Hre s2 Hwf2).
Qed.

(** X7.  The event loop keeps a host well formed, turn after turn: every
    armed timer keeps running a closure whose [interval] is its own
    handle. *)
Theorem well_formed_run (n : nat) (s : host) :
  well_formed s -> well_formed (run n s).
Proof.
  intros Hwf. induction n as [|n IH]; simpl; [exact Hwf|].
  apply well_formed_step, IH.
Qed.

(** X8.  Invocations do not interfere: in a well-formed host, the turn
    of the event loop that runs the tick of one timer keeps every armed
    timer with another handle exactly as it was - armed, with the same
    due time and closure - whatever [conditionFn] and [callback] do. *)
Theorem tick_keeps_other_timers (s : host) (t u : timer) :
  well_formed s ->
  earliest (timers s) = Some t ->
  In u (timers s) ->
  tid u <> tid t ->
  In u (timers (step s)).
Proof.
  intros Hwf Et Hu Hne. unfold step. destruct (halted s); [exact Hu|].
  rewrite Et. set (s1 := set_ticks _ _).
  pose proof (earliest_elem _ _ Et) as Ht.
  unfold well_formed in Hwf. rewrite Forall_forall in Hwf.
  destruct (Hwf t (proj2 (list_elem_of_In _ _) Ht)) as [_ Hown].
  destruct (run_task_timers (job t) s1) as (_ & _ & _ & Htm).
  assert (Hu2 : In u (timers (snd (run_task (job t) s1)))).
  { destruct Htm as [-> | (h & Hh & ->)]; [exact Hu|].
    apply list_elem_of_In, list_elem_of_filter.
    split; [|apply list_elem_of_In; exact Hu].
    change (frames s1) with (frames s) in Hh. congruence. }
  assert (Hre : forall s2, In u (timers s2) -> In u (timers (rearm t s2))).
  { intros s2 H2. unfold rearm. simpl. apply in_map_iff.
    exists u. split; [|exact H2].
    destruct (decide (tid u = tid t)); [contradiction | reflexivity]. }
  destruct (run_task (job t) s1) as [[[]|x] s2]; simpl in *.
  - apply Hre, Hu2.
  - apply (Hre s2 Hu2).
Qed.

(** What a tick does to the promise store: nothing, or the fulfilment
    with [true] of the promise its closure resolves. *)
Lemma run_task_promises j s :
  promises (snd (run_task j s)) = promises s \/
  exists c cb f p, j = AsyncTick c cb f p /\
    promises (snd (run_task j s)) = <[p := Fulfilled true]> (promises s).
Proof.
  destruct s as [nw ni tms frs prs wd tk hl tr].
  destruct j as [c cb f | c cb f q]; simpl.
  - unfold sync_tick, bind, call_conditionFn. simpl.
    destruct (c wd) as [[[|]|x] w]; simpl; auto.
    unfold read_const. simpl.
    destruct (frs !! f) as [[h|]|]; simpl; auto.
    unfold call_callback. simpl. destruct (cb w) as [r w']. simpl. auto.
  - unfold async_tick, bind, call_conditionFn. simpl.
    destruct (c wd) as [[[|]|x] w]; simpl; auto.
    unfold read_const. simpl.
    destruct (frs !! f) as [[h|]|]; simpl; auto.
    unfold call_callback. simpl. destruct (cb w) as [[[]|x] w']; simpl; auto.
    unfold resolve, settle. simpl.
    destruct (prs !! q) as [[| |]|]; simpl; auto.
    right. exists c, cb, f, q. auto.
Qed.

(** X9.  A turn of the event loop settles no promise but the one the
    closure it runs resolves: every other promise of the store is left
    as it was, and the store keeps its size - so an invocation of
    [async] never settles the promise of another one. *)
Theorem tick_keeps_other_promises (s : host) (t : timer) (q : nat) :
  earliest (timers s) = Some t ->
  (forall c cb f, job t <> AsyncTick c cb f q) ->
  promises (step s) !! q = promises s !! q /\
  length (promises (step s)) = length (promises s).
Proof.
  intros Et Hq. unfold step. destruct (halted s); [auto|].
  rewrite Et. set (s1 := set_ticks _ _).
  assert (H : promises (snd (run_task (job t) s1)) !! q = promises s !! q /\
              length (promises (snd (run_task (job t) s1))) =
              length (promises s)).
  { destruct (run_task_promises (job t) s1)
      as [-> | (c & cb & f & p & Hj & ->)]; [auto|].
    rewrite length_insert. split; [|reflexivity].
    apply list_lookup_insert_ne. intros ->. exact (Hq _ _ _ Hj). }
  destruct (run_task (job t) s1) as [[[]|x] s2]; exact H.
Qed.

(** ** The ticks, as equations on an explicit host *)

Lemma tick_not_true j c cb f nw ni tms frs prs wd tk hl tr r w :
  (j = SyncTick c cb f \/ exists p, j = AsyncTick c cb f p) ->
  c wd = (r, w) -> r <> Ret true ->
  run_task j (mkHost nw ni tms frs prs wd tk hl tr) =
  (match r with Ret _ => Ret tt | Throw x => Throw x end,
   mkHost nw ni tms frs prs w tk hl (tr ++ [(nw, EvEval r)])).
Proof.
  intros Hj E Hr.
  destruct Hj as [-> | [p ->]]; simpl;
    unfold sync_tick, async_tick, bind, call_conditionFn; simpl;
    rewrite E; destruct r as [[|]|x]; try reflexivity;
    exfalso; apply Hr; reflexivity.
Qed.

Lemma sync_tick_true c cb f h nw ni tms frs prs wd tk hl tr w r w' :
  c wd = (Ret true, w) -> frs !! f = Some (Some h) -> cb w = (r, w') ->
  sync_tick c cb f (mkHost nw ni tms frs prs wd tk hl tr) =
  (r, mkHost nw ni (filter (fun u => tid u <> h) tms) frs prs w' tk hl
        (tr ++ [(nw, EvEval (Ret true)); (nw, EvClear h); (nw, EvCall r)])).
Proof.
  intros E Hf E'.
  unfold sync_tick, bind, call_conditionFn. simpl. rewrite E. simpl.
  unfold read_const. simpl. rewrite Hf. simpl.
  unfold call_callback. simpl. rewrite E'. simpl. host_simpl.
  rewrite <- !app_assoc. reflexivity.
Qed.

Lemma async_tick_true c cb f p h nw ni tms frs prs wd tk hl tr w r w' :
  c wd = (Ret true, w) -> frs !! f = Some (Some h) -> cb w = (r, w') ->
  async_tick c cb f p (mkHost nw ni tms frs prs wd tk hl tr) =
  match r with
  | Ret _ =>
      (Ret tt,
       settle p (Fulfilled true)
         (mkHost nw ni (filter (fun u => tid u <> h) tms) frs prs w' tk hl
            (tr ++ [(nw, EvEval (Ret true)); (nw, EvClear h);
                    (nw, EvCall r)])))
  | Throw x =>
      (Throw x,
       mkHost nw ni (filter (fun u => tid u <> h) tms) frs prs w' tk hl
         (tr ++ [(nw, EvEval (Ret true)); (nw, EvClear h); (nw, EvCall r)]))
  end.
Proof.
  intros E Hf E'.
  unfold async_tick, bind, call_conditionFn. simpl. rewrite E. simpl.
  unfold read_const. simpl. rewrite Hf. simpl.
  unfold call_callback. simpl. rewrite E'. simpl.
  destruct r as [[]|x]; simpl; unfold resolve; host_simpl;
    rewrite <- !app_assoc; reflexivity.
Qed.

(** What a turn of the event loop does to the world and to the counts
    of a run of one invocation. *)
Lemma step_effect j ps n s :
  is_tick j -> inv j ps n s ->
  step s = s \/
  (exists w, conditionFn (env (ticks s) (world s)) = (Ret true, w) /\
     world (step s) = snd (callback w) /\
     calls (step s) = S (calls s) /\
     returned_true (step s) = S (returned_true s)) \/
  (exists r w, conditionFn (env (ticks s) (world s)) = (r, w) /\
     r <> Ret true /\
     world (step s) = w /\
     calls (step s) = calls s /\
     returned_true (step s) = returned_true s).
Proof.
  intros Hj (_ & _ & [Hp | Hst]).
  2:{ left. apply step_idle, Hst. }
  destruct Hp as ((t & Htm & _) & Hfr & _).
  destruct (halted s) eqn:Hh; [left; apply step_halted, Hh|].
  right. unfold calls, returned_true.
  destruct s as [nw ni tms frs prs wd tk hl tr].
  cbn [halted timers frames world ticks trace] in *. subst tms hl.
  unfold step. host_simpl. cbn [earliest job due].
  destruct (conditionFn (env tk wd)) as [r w] eqn:E.
  assert (Hr : r = Ret true \/ r <> Ret true).
  { destruct r as [[|]|x]; [left; reflexivity | right | right];
      discriminate. }
  destruct Hr as [-> | Hr].
  - left. exists w. split; [reflexivity|].
    destruct (callback w) as [r' w'] eqn:E'.
    destruct Hj as [-> | ->]; cbn [run_task the_sync_tick the_async_tick].
    + rewrite (sync_tick_true _ _ _ 1 _ _ _ _ _ _ _ _ _ w r' w' E Hfr E').
      rewrite filter_own_timer.
      destruct r' as [[]|x]; unfold rearm, report; simpl;
        rewrite !occurrences_app; simpl; repeat split; lia.
    + rewrite (async_tick_true _ _ _ 0 1 _ _ _ _ _ _ _ _ _ w r' w' E Hfr E').
      rewrite filter_own_timer.
      destruct r' as [[]|x]; unfold rearm, report, settle; simpl.
      * destruct (prs !! 0) as [[| |]|]; simpl;
          rewrite !occurrences_app; simpl; repeat split; lia.
      * rewrite !occurrences_app; simpl; repeat split; lia.
  - right. exists r, w. split; [reflexivity|]. split; [exact Hr|].
    rewrite (tick_not_true j conditionFn callback 0 _ _ _ _ _ _ _ _ _ r w);
      [| destruct Hj as [-> | ->]; [left | right; exists 0]; reflexivity
       | exact E | exact Hr].
    destruct r as [[|]|x]; [exfalso; apply Hr; reflexivity | |];
      unfold rearm, report; simpl;
      rewrite !occurrences_app; simpl; repeat split; lia.
Qed.

End Whenty.

(** * The test harness *)

(** X10.  With a fresh mock as callback, and a condition and a program
    that leave the mock alone, the mock's call count is, in every state
    of every run of [sync] or [async], the number of invocations of the
    callback: it is at most 1, and [wasCalled] answers whether an
    evaluation of the condition has returned [true]. *)
Theorem mock_counts_invocations {A : Type} (host_delay : Z -> Z)
    (c : A -> result bool * A) (env : nat -> A -> A) (fatal : bool)
    (iv : option Z) (t0 : Z) (a0 : A) (e : entry) (n : nat) :
  getCallCount (snd (world (run (around_mock env) fatal n
     (started host_delay (beside_mock c) mock_callback iv t0 (a0, 0) e)))) =
  calls (run (around_mock env) fatal n
     (started host_delay (beside_mock c) mock_callback iv t0 (a0, 0) e)) /\
  getCallCount (snd (world (run (around_mock env) fatal n
     (started host_delay (beside_mock c) mock_callback iv t0 (a0, 0) e)))) <= 1 /\
  wasCalled (snd (world (run (around_mock env) fatal n
     (started host_delay (beside_mock c) mock_callback iv t0 (a0, 0) e)))) =
  (0 <? returned_true (run (around_mock env) fatal n
     (started host_delay (beside_mock c) mock_callback iv t0 (a0, 0) e))).
Proof.
  set (s0 := started host_delay (beside_mock c) mock_callback iv t0 (a0, 0) e).
  assert (H : forall m,
            snd (world (run (around_mock env) fatal m s0)) =
            calls (run (around_mock env) fatal m s0) /\
            calls (run (around_mock env) fatal m s0) =
            returned_true (run (around_mock env) fatal m s0)).
  { induction m as [|m [IH1 IH2]].
    - destruct e; split; reflexivity.
    - destruct (started_inv host_delay (around_mock env) fatal (beside_mock c)
                  mock_callback iv t0 (a0, 0) e m)
        as (j & ps & Hj & Hinv & _).
      fold s0 in Hinv. simpl.
      destruct (step_effect host_delay (around_mock env) fatal (beside_mock c)
                  mock_callback iv t0 (a0, 0) j ps m _ Hj Hinv)
        as [-> | [(w & E & Hw & Hc & Hr) | (r & w & E & Hne & Hw & Hc & Hr)]].
      + split; assumption.
      + rewrite Hw, Hc, Hr. unfold beside_mock, around_mock in E.
        simpl in E. inversion E; subst. simpl.
        unfold mock_invoke.
        split; [f_equal; exact IH1 | f_equal; exact IH2].
      + rewrite Hw, Hc, Hr. unfold beside_mock, around_mock in E.
        simpl in E. inversion E; subst. simpl.
        split; [exact IH1 | exact IH2]. }
  destruct (H n) as [H1 H2].
  destruct (started_inv host_delay (around_mock env) fatal (beside_mock c)
              mock_callback iv t0 (a0, 0) e n)
    as (j & ps & _ & Hinv & _).
  fold s0 in Hinv. pose proof (inv_calls_le _ _ _ _ _ _ _ _ _ _ _ Hinv) as Hle.
  unfold getCallCount, wasCalled. rewrite H1.
  split; [reflexivity|]. split; [exact Hle|].
  rewrite H2. reflexivity.
Qed.

Lemma assert_all_counts checks t :
  passedTests (assert_all checks t) =
    passedTests t + length (filter (fun c => fst c = true) checks) /\
  failedTests (assert_all checks t) =
    failedTests t + length (filter (fun c => fst c = false) checks) /\
  map fst (console (assert_all checks t)) =
    map fst (console t) ++ map (fun c => negb (fst c)) checks.
Proof.
  revert t. induction checks as [|[b m] checks IH]; intros t; simpl.
  - rewrite app_nil_r. repeat split; lia.
  - destruct (IH (assert b m t)) as (Hp & Hf & Hc).
    unfold assert_all in *. simpl. rewrite Hp, Hf, Hc.
    rewrite !filter_cons. simpl.
    destruct b; simpl; rewrite map_app; simpl; rewrite <- app_assoc;
      simpl; repeat split; lia.
Qed.

(** X11.  A suite of assertions run on a fresh tally counts each
    assertion once, as passed or as failed, prints one line per
    assertion in order - on stdout when it holds, on stderr when not -
    and its exit code is 0 when every assertion held and 1 otherwise. *)
Theorem suite_tally (checks : list (bool * string)) :
  passedTests (assert_all checks (mkTally 0 0 [])) +
  failedTests (assert_all checks (mkTally 0 0 [])) = length checks /\
  map fst (console (assert_all checks (mkTally 0 0 []))) =
    map (fun c => negb (fst c)) checks /\
  exit_code (assert_all checks (mkTally 0 0 [])) =
    (if forallb fst checks then 0 else 1).
Proof.
  destruct (assert_all_counts checks (mkTally 0 0 [])) as (Hp & Hf & Hc).
  simpl in *. split; [|split; [exact Hc|]].
  - rewrite Hp, Hf. clear.
    induction checks as [|[[] m] checks IH]; [reflexivity | |];
      rewrite !filter_cons; simpl in *; lia.
  - unfold exit_code. rewrite Hf. clear.
    induction checks as [|[[] m] checks IH].
    + reflexivity.
    + rewrite filter_cons. simpl. exact IH.
    + rewrite filter_cons. reflexivity.
Qed.

(** * Concrete runs *)

(** Node and Bun arm the delay they are asked for when it is in range. *)
Lemma node_delay_in_range (ms : Z) :
  (1 <= ms <= TIMEOUT_MAX)%Z -> node_delay ms = ms.
Proof.
  intros [H1 H2]. unfold node_delay.
  rewrite (proj2 (Z.leb_le 1 ms) H1), (proj2 (Z.leb_le ms TIMEOUT_MAX) H2).
  reflexivity.
Qed.

(** The condition of test 1.1 answers [false], [false], [true]; the
    mock is the callback, and its call count is the second component of
    the world. *)
Lemma callback_exactly_once_witness :
  first_true_on_tick quiet (counting 3) (0, 0) 3 /\
  calls (run quiet false 2
           (started node_delay (counting 3) mock (Some 10%Z) 0 (0, 0) Sync))
  = 0 /\
  calls (run quiet false 7
           (started node_delay (counting 3) mock (Some 10%Z) 0 (0, 0) Async))
  = 1 /\
  world (run quiet false 7
           (started node_delay (counting 3) mock (Some 10%Z) 0 (0, 0) Async))
  = (3, 1).
Proof.
  assert (H : first_true_on_tick quiet (counting 3) (0, 0) 3).
  { split; [lia|]. split; [reflexivity|].
    intros k Hk. destruct k as [|[|k]];
      [reflexivity | reflexivity | simpl in Hk; lia]. }
  split; [exact H|].
  pose proof (callback_exactly_once_on_tick_N node_delay quiet false
                (counting 3) mock (Some 10%Z) 0 (0, 0) Sync 3 2 H)
    as (Hc & _).
  pose proof (callback_exactly_once_on_tick_N node_delay quiet false
                (counting 3) mock (Some 10%Z) 0 (0, 0) Async 3 7 H)
    as (Hc' & _ & Hw).
  split; [exact Hc|]. split; [exact Hc' | exact Hw].
Defined.

Lemma no_evaluation_after_true_witness :
  timers (run quiet true 3
            (started node_delay (counting 3) mock (Some 10%Z) 0 (0, 0) Sync)) = [] /\
  returned_true (run quiet true 3
            (started node_delay (counting 3) mock (Some 10%Z) 0 (0, 0) Sync)) = 1 /\
  evaluations (run quiet true (3 + 4)
            (started node_delay (counting 3) mock (Some 10%Z) 0 (0, 0) Sync)) =
  evaluations (run quiet true 3
            (started node_delay (counting 3) mock (Some 10%Z) 0 (0, 0) Sync)).
Proof.
  apply (no_evaluation_after_true node_delay quiet true (counting 3) mock (Some 10%Z)
           0 (0, 0) Sync 3 4).
  vm_compute. lia.
Defined.

Lemma callback_or_timeout_then_stop_witness :
  timers (run quiet false 1
            (started node_delay always mock None 0 (0, 0) Async)) = [] /\
  evaluations (run quiet false (1 + 9)
            (started node_delay always mock None 0 (0, 0) Async)) =
  evaluations (run quiet false 1
            (started node_delay always mock None 0 (0, 0) Async)).
Proof.
  apply (callback_or_timeout_then_stop node_delay quiet false always mock None
           0 (0, 0) Async 1 9).
  vm_compute. lia.
Defined.

(** C6, as stated, fails: with a callback that throws, [conditionFn]
    returns [true] on the first tick, [callback] is invoked, and the
    promise is pending in every state of the run. *)
Lemma async_pending_when_callback_throws :
  first_true_on_tick quiet always (0, 0) 1 /\
  calls (run quiet false 1
           (started_async node_delay always failing (Some 10%Z) 0 (0, 0))) = 1 /\
  forall n, promises (run quiet false n
              (started_async node_delay always failing (Some 10%Z) 0 (0, 0)))
            = [Pending].
Proof.
  assert (H : first_true_on_tick quiet always (0, 0) 1).
  { split; [lia|]. split; [reflexivity|]. intros k Hk. simpl in Hk. lia. }
  split; [exact H|]. split; [reflexivity|].
  intros n. rewrite (run_async node_delay quiet false always failing _ _ _ 1 n H).
  destruct (n <? 1); reflexivity.
Qed.

Lemma async_fulfils_after_callback_witness :
  calls (run quiet false 5
           (started_async node_delay (counting 2) mock (Some 10%Z) 0 (0, 0))) = 1 /\
  promises (run quiet false 5
           (started_async node_delay (counting 2) mock (Some 10%Z) 0 (0, 0)))
  = [Fulfilled true].
Proof.
  assert (H : 0 < returned_true (run quiet false 5
                (started_async node_delay (counting 2) mock (Some 10%Z) 0 (0, 0)))).
  { vm_compute. lia. }
  assert (H' : failed_calls (run quiet false 5
                (started_async node_delay (counting 2) mock (Some 10%Z) 0 (0, 0))) = 0).
  { vm_compute. reflexivity. }
  pose proof (async_fulfils_after_callback node_delay quiet false (counting 2) mock
                (Some 10%Z) 0 (0, 0) 5 0 H H') as (Hc & Hp & _).
  split; [exact Hc | exact Hp].
Defined.

(** C7, as stated, fails on Node and Bun for an interval above
    2^31 - 1: the host arms 1 ms, and the first evaluation is 1 ms after
    the call, not [intervalMs] after it. *)
Lemma first_evaluation_before_intervalMs :
  trace (run quiet false 1
           (started node_delay always mock (Some 2147483648%Z) 0 (0, 0) Sync))
  = [(1%Z, EvEval (Ret true)); (1%Z, EvClear 1); (1%Z, EvCall (Ret tt))] /\
  ~ Forall (fun x => (0 + 2147483648 <= fst x)%Z)
      (trace (run quiet false 1
                (started node_delay always mock (Some 2147483648%Z)
                   0 (0, 0) Sync))).
Proof.
  assert (Htr : trace (run quiet false 1
                  (started node_delay always mock (Some 2147483648%Z)
                     0 (0, 0) Sync))
                = [(1%Z, EvEval (Ret true)); (1%Z, EvClear 1);
                   (1%Z, EvCall (Ret tt))])
    by (vm_compute; reflexivity).
  split; [exact Htr|]. rewrite Htr.
  intros H. inversion H as [|x l H1 _]. simpl in H1. lia.
Qed.

Lemma no_evaluation_at_call_time_witness :
  node_delay (default 50%Z (Some 10%Z)) = default 50%Z (Some 10%Z) /\
  Forall (fun x => (0 + default 50 (Some 10) <= fst x)%Z)
    (trace (run quiet false 5
              (started node_delay always mock (Some 10%Z) 0 (0, 0) Sync))).
Proof.
  assert (H : node_delay (default 50%Z (Some 10%Z)) = default 50%Z (Some 10%Z)).
  { apply node_delay_in_range. unfold TIMEOUT_MAX. simpl. lia. }
  split; [exact H|].
  pose proof (no_evaluation_at_call_time node_delay quiet false always mock
                (Some 10%Z) 0 (0, 0) Sync 5)
    as (_ & _ & _ & _ & _ & _ & _ & _ & Hh).
  exact (Hh H).
Defined.

(** C10, as stated, fails: with a callback that throws, [sync] and
    [async] both invoke it on the first tick, and [async] does not
    fulfil its promise, in any state of the run. *)
Lemma async_adds_no_fulfilment_when_callback_throws :
  calls (run quiet true 1
           (started_sync node_delay always failing (Some 10%Z) 0 (0, 0))) = 1 /\
  calls (run quiet true 1
           (started_async node_delay always failing (Some 10%Z) 0 (0, 0))) = 1 /\
  forall n, promises (run quiet true n
              (started_async node_delay always failing (Some 10%Z) 0 (0, 0)))
            = [Pending].
Proof.
  assert (H : first_true_on_tick quiet always (0, 0) 1).
  { split; [lia|]. split; [reflexivity|]. intros k Hk. simpl in Hk. lia. }
  split; [reflexivity|]. split; [reflexivity|].
  intros n. rewrite (run_async node_delay quiet true always failing _ _ _ 1 n H).
  destruct (n <? 1); reflexivity.
Qed.

Lemma throws_are_not_caught_witness :
  throws_during_tick always failing 0
    (started_async node_delay always failing None 0 (0, 0))
    (Thrown "callback failed") /\
  fst (async_tick always failing 0 0
         (started_async node_delay always failing None 0 (0, 0)))
  = Throw (Thrown "callback failed") /\
  promises (snd (async_tick always failing 0 0
                   (started_async node_delay always failing None 0 (0, 0))))
  = [Pending].
Proof.
  assert (H : throws_during_tick always failing 0
                (started_async node_delay always failing None 0 (0, 0))
                (Thrown "callback failed")).
  { right. exists (0, 0), (0, 0), 1. repeat split; reflexivity. }
  split; [exact H|].
  pose proof (throws_are_not_caught always failing 0 0 _ _ H)
    as (_ & Ha & Hp & _).
  split; [exact Ha | exact Hp].
Defined.


(** C1.  The code has no timeout.  A fourth argument is dropped by the
    call; in the README example [when.async(() => isServiceUp, cb, 50,
    1000)], the service coming up after 2000 ms, the promise is still
    pending at 1000 ms and polling goes on, and at 2000 ms the callback
    runs and the promise is fulfilled; with [() => false] and no fourth
    argument the promise is still pending past 5000 ms; no run ever
    rejects the promise with the documented timeout error. *)
Theorem async_has_no_timeout :
  (forall timeoutMs : Z,
     call_async node_delay flag_set print_line [50; timeoutMs]%Z =
     call_async node_delay flag_set print_line [50]%Z) /\
  (let s := snd (call_async node_delay flag_set print_line [50; 1000]%Z
                   (boot 0 (false, 0))) in
   now (run (sets_flag 2000 50) false 20 s) = 1000%Z /\
   promises (run (sets_flag 2000 50) false 20 s) = [Pending] /\
   evaluations (run (sets_flag 2000 50) false 30 s) = 30 /\
   now (run (sets_flag 2000 50) false 40 s) = 2000%Z /\
   calls (run (sets_flag 2000 50) false 40 s) = 1 /\
   promises (run (sets_flag 2000 50) false 40 s) = [Fulfilled true] /\
   forall n,
     promises (run (sets_flag 2000 50) false n s) <>
     [Rejected (Thrown "Condition not met within 1000ms.")]) /\
  (let s := snd (call_async node_delay never mock [10]%Z (boot 0 (0, 0))) in
   now (run quiet false 500 s) = 5000%Z /\
   promises (run quiet false 501 s) = [Pending] /\
   calls (run quiet false 501 s) = 0 /\
   evaluations (run quiet false 501 s) = 501).
Proof.
  split; [reflexivity|]. split.
  - cbv zeta. repeat (split; [vm_compute; reflexivity|]).
    intros n.
    change (snd (call_async node_delay flag_set print_line [50; 1000]%Z
                   (boot 0 (false, 0))))
      with (started node_delay flag_set print_line (Some 50%Z) 0 (false, 0) Async).
    destruct (started_inv node_delay (sets_flag 2000 50) false flag_set print_line
                (Some 50%Z) 0 (false, 0) Async n)
      as (j & ps & _ & (_ & _ & Hph) & _ & Hps).
    destruct (Hps eq_refl) as [-> _].
    destruct Hph as [Hp | Hst].
    + destruct Hp as (_ & _ & -> & _). discriminate.
    + destruct Hst as (_ & _ & _ & _ & [-> | ->] & _); discriminate.
  - cbv zeta. repeat split; vm_compute; reflexivity.
Qed.

(** C2.  [sync] has no timeout either.  A fourth argument is dropped by
    the call; in the README example [when.sync(() => dataLoaded, cb,
    100, 2000)], the data being loaded after 5000 ms, the timer is still
    armed at 2000 ms, polling goes on, and at 5000 ms the callback is
    invoked. *)
Theorem sync_has_no_timeout :
  (forall timeoutMs : Z,
     call_sync node_delay flag_set print_line [100; timeoutMs]%Z =
     call_sync node_delay flag_set print_line [100]%Z) /\
  (let s := snd (call_sync node_delay flag_set print_line [100; 2000]%Z
                   (boot 0 (false, 0))) in
   now (run (sets_flag 5000 100) false 20 s) = 2000%Z /\
   map tid (timers (run (sets_flag 5000 100) false 20 s)) = [1] /\
   evaluations (run (sets_flag 5000 100) false 20 s) = 20 /\
   evaluations (run (sets_flag 5000 100) false 49 s) = 49 /\
   calls (run (sets_flag 5000 100) false 49 s) = 0 /\
   now (run (sets_flag 5000 100) false 50 s) = 5000%Z /\
   calls (run (sets_flag 5000 100) false 50 s) = 1 /\
   world (run (sets_flag 5000 100) false 50 s) = (true, 1)).
Proof.
  split; [reflexivity|].
  cbv zeta. repeat split; vm_compute; reflexivity.
Qed.

(** ** Further concrete runs *)

Lemma run_on_schedule_witness :
  now (run quiet false 7
         (started node_delay (counting 3) mock (Some 0%Z) 0 (0, 0) Async)) = 3%Z /\
  evaluations (run quiet false 7
         (started node_delay (counting 3) mock (Some 0%Z) 0 (0, 0) Async)) = 3.
Proof.
  assert (H : first_true_on_tick quiet (counting 3) (0, 0) 3).
  { split; [lia|]. split; [reflexivity|].
    intros k Hk. destruct k as [|[|k]];
      [reflexivity | reflexivity | simpl in Hk; lia]. }
  pose proof (run_on_schedule node_delay quiet false (counting 3) mock (Some 0%Z)
                0 (0, 0) Async 3 7 H) as Hs.
  cbn [Nat.ltb Nat.leb] in Hs. destruct Hs as (Hn & He & _).
  split; [exact Hn | exact He].
Defined.

Lemma history_of_a_run_witness :
  trace (run quiet false 4
           (started_sync node_delay always failing (Some 10%Z) 0 (0, 0))) =
  [(10%Z, EvEval (Ret true)); (10%Z, EvClear 1);
   (10%Z, EvCall (Throw (Thrown "callback failed")));
   (10%Z, EvUncaught (Thrown "callback failed"))].
Proof.
  assert (H : first_true_on_tick quiet always (0, 0) 1).
  { split; [lia|]. split; [reflexivity|]. intros k Hk. simpl in Hk. lia. }
  assert (Hn : 1 <= 4) by lia.
  exact (proj1 (history_of_a_run node_delay quiet false always failing (Some 10%Z)
                  0 (0, 0) 1 4 H Hn)).
Defined.

Lemma polling_survives_throws_witness :
  calls (run quiet false 9
           (started node_delay (flaky 3) mock (Some 10%Z) 0 (0, 0) Sync)) = 1 /\
  evaluations (run quiet false 9
           (started node_delay (flaky 3) mock (Some 10%Z) 0 (0, 0) Sync)) = 3.
Proof.
  assert (H1 : 1 <= 3) by lia.
  assert (H2 : poll quiet (flaky 3) (0, 0) (3 - 1) = Ret true)
    by reflexivity.
  assert (H3 : forall k, k < 3 - 1 -> poll quiet (flaky 3) (0, 0) k <> Ret true).
  { intros k Hk. destruct k as [|[|k]];
      [discriminate | discriminate | simpl in Hk; lia]. }
  pose proof (polling_survives_throws node_delay quiet false (flaky 3) mock
                (Some 10%Z) 0 (0, 0) Sync 3 9 eq_refl H1 H2 H3)
    as (Hc & He & _).
  split; [exact Hc | exact He].
Defined.

Lemma throw_halts_the_run_witness :
  halted (run quiet true 9
            (started node_delay (flaky 3) mock (Some 10%Z) 0 (0, 0) Async)) = true /\
  calls (run quiet true 9
            (started node_delay (flaky 3) mock (Some 10%Z) 0 (0, 0) Async)) = 0.
Proof.
  assert (H1 : 1 <= 1) by lia.
  assert (H2 : forall k, k < 1 - 1 -> poll quiet (flaky 3) (0, 0) k = Ret false).
  { intros k Hk. simpl in Hk. lia. }
  assert (H3 : poll quiet (flaky 3) (0, 0) (1 - 1) = Throw (Thrown "not ready"))
    by reflexivity.
  assert (H4 : 1 <= 9) by lia.
  pose proof (throw_halts_the_run node_delay quiet true (flaky 3) mock (Some 10%Z)
                0 (0, 0) Async 1 9 _ eq_refl H1 H2 H3 H4)
    as (Hh & _ & Hc & _).
  split; [exact Hh | exact Hc].
Defined.

Lemma sync_arms_one_fresh_timer_witness :
  map due (timers (snd (sync node_delay never failing (Some 0%Z)
                          (started_sync node_delay always mock (Some 10%Z)
                             0 (0, 0)))))
  = [10%Z; 1%Z].
Proof.
  assert (H : well_formed (started_sync node_delay always mock (Some 10%Z)
                             0 (0, 0))).
  { apply Forall_cons. split; [|apply Forall_nil_2].
    split; [simpl; lia | reflexivity]. }
  destruct (sync_arms_one_fresh_timer node_delay never failing (Some 0%Z) _ H)
    as (_ & Htm & _).
  rewrite Htm. reflexivity.
Defined.

Lemma async_arms_one_fresh_timer_witness :
  fst (async node_delay never failing None
         (started_async node_delay always mock (Some 10%Z) 0 (0, 0))) = Ret 1.
Proof.
  assert (H : well_formed (started_async node_delay always mock (Some 10%Z) 0 (0, 0))).
  { apply Forall_cons. split; [|apply Forall_nil_2].
    split; [simpl; lia | reflexivity]. }
  exact (proj1 (async_arms_one_fresh_timer node_delay never failing None _ H)).
Defined.

Lemma well_formed_run_witness :
  well_formed (run quiet false 5
                 (started_sync node_delay (counting 9) mock (Some 10%Z) 0 (0, 0))).
Proof.
  apply well_formed_run.
  apply Forall_cons. split; [|apply Forall_nil_2].
  split; [simpl; lia | reflexivity].
Defined.

Lemma tick_keeps_other_timers_witness :
  In (mkTimer 2 20 20 (SyncTick never mock 1))
     (timers (step quiet false
                (snd (sync node_delay never mock (Some 20%Z)
                        (started_sync node_delay always mock (Some 10%Z) 0 (0, 0)))))).
Proof.
  apply (tick_keeps_other_timers quiet false _
           (mkTimer 1 10 10 (SyncTick always mock 0))).
  - apply Forall_cons. split; [split; [simpl; lia | reflexivity]|].
    apply Forall_cons. split; [split; [simpl; lia | reflexivity]|].
    apply Forall_nil_2.
  - reflexivity.
  - simpl. right. left. reflexivity.
  - simpl. lia.
Defined.

Lemma tick_keeps_other_promises_witness :
  promises (step quiet false
              (snd (sync node_delay always mock (Some 10%Z)
                      (started_async node_delay never mock (Some 20%Z) 0 (0, 0)))))
    !! 0 =
  promises (snd (sync node_delay always mock (Some 10%Z)
                   (started_async node_delay never mock (Some 20%Z) 0 (0, 0)))) !! 0 /\
  length (promises (step quiet false
              (snd (sync node_delay always mock (Some 10%Z)
                      (started_async node_delay never mock (Some 20%Z) 0 (0, 0))))))
  = length (promises (snd (sync node_delay always mock (Some 10%Z)
                   (started_async node_delay never mock (Some 20%Z) 0 (0, 0))))).
Proof.
  apply (tick_keeps_other_promises quiet false _
           (mkTimer 2 10 10 (SyncTick always mock 1)) 0).
  - reflexivity.
  - simpl. intros c cb f. discriminate.
Defined.
